(** * The KoboToolbox-to-PostgreSQL load script, [pipeline.py]

    The script is one straight-line pass: an HTTP GET, a [pandas] frame
    whose column labels are rewritten, a timestamp conversion of two
    columns, and a drop/create/insert/commit sequence on one [psycopg2]
    connection.  The embedding below follows it statement by statement.

    Python exceptions are values of [exn] carried by [result]; the calls
    made on the database connection are recorded, in order, in a trace
    threaded by the small monad [DB].  What the script takes from its
    environment (the HTTP response, the CSV reader, the permissive date
    parser, the database server) is a field of the record [World].

    Two points of pandas are modelled as the script meets them.  The
    renaming can give two columns one label, and a lookup by a repeated
    label answers with a sub-Series or a sub-frame: lookups return an
    [item].  The None fill of line 58 depends on the dtype of the column:
    it is [where_cell], which leaves the blanks of a numeric column as
    they are. *)

From Stdlib Require Import Bool List ZArith NArith Lia.
From Stdlib Require Import Ascii String DecimalString DecimalPos DecimalZ.
Import ListNotations.

Local Open Scope string_scope.
Local Open Scope list_scope.

(** ** Python strings

    A [str] is a sequence of code points.  The development covers the code
    points below 256, one [ascii] each; [isspace] and [lower_char] are
    Python's [str.isspace] and [str.lower] on that range. *)

Module Str.

Definition code (c : ascii) : N := N_of_ascii c.

(** [str.isspace] : TAB..CR, FS..US, SPACE, NEL and NBSP. *)
Definition isspace (c : ascii) : bool :=
  let n := code c in
  (((9 <=? n) && (n <=? 13)) || ((28 <=? n) && (n <=? 32))
   || (n =? 133) || (n =? 160))%N.

(** [str.lower] on one character: A..Z and the Latin-1 capitals
    U+00C0..U+00DE (U+00D7, the multiplication sign, is not a letter). *)
Definition lower_char (c : ascii) : ascii :=
  let n := code c in
  if (((65 <=? n) && (n <=? 90))
      || ((192 <=? n) && (n <=? 222) && negb (n =? 215)))%N
  then ascii_of_N (n + 32) else c.

Fixpoint lower (s : string) : string :=
  match s with
  | EmptyString => EmptyString
  | String c s' => String (lower_char c) (lower s')
  end.

Fixpoint lstrip (s : string) : string :=
  match s with
  | EmptyString => EmptyString
  | String c s' => if isspace c then lstrip s' else s
  end.

(** [rstrip] drops the longest all-whitespace suffix. *)
Fixpoint rstrip (s : string) : string :=
  match s with
  | EmptyString => EmptyString
  | String c s' =>
      match rstrip s' with
      | EmptyString => if isspace c then EmptyString else String c EmptyString
      | r => String c r
      end
  end.

Definition strip (s : string) : string := rstrip (lstrip s).

(** [s.replace(old, new)] for a one-character [old], which is all the
    script uses: every occurrence, left to right. *)
Fixpoint replace (old : ascii) (new : string) (s : string) : string :=
  match s with
  | EmptyString => EmptyString
  | String c s' =>
      if Ascii.eqb c old then new ++ replace old new s'
      else String c (replace old new s')
  end.

(** Every character of [s] passes the test [p]. *)
Fixpoint all (p : ascii -> bool) (s : string) : bool :=
  match s with
  | EmptyString => true
  | String c s' => p c && all p s'
  end.

End Str.

(** ** Step 2 of the script: the column labels *)

(** [df.columns.str.strip().str.lower().str.replace("?", "", regex=False)
      .str.replace(" ", "_").str.replace("&", "and").str.replace("-", "_")],
    on one label. *)
Definition canonicalize (label : string) : string :=
  Str.replace "-" "_"
    (Str.replace "&" "and"
       (Str.replace " " "_"
          (Str.replace "?" ""
             (Str.lower (Str.strip label))))).

Definition canonicalize_columns (labels : list string) : list string :=
  map canonicalize labels.

(** The chain as the specification words it, one named step after the
    other, for comparison with [canonicalize]. *)
Module SpecChain.
Definition trim_whitespace := Str.strip.
Definition lowercase := Str.lower.
Definition remove_question_marks := Str.replace "?" "".
Definition spaces_to_underscores := Str.replace " " "_".
Definition ampersand_to_and := Str.replace "&" "and".
Definition hyphens_to_underscores := Str.replace "-" "_".

Definition steps : list (string -> string) :=
    [ trim_whitespace; lowercase; remove_question_marks;
      spaces_to_underscores; ampersand_to_and; hyphens_to_underscores ].

Definition chain (label : string) : string :=
    fold_left (fun acc step => step acc) steps label.
End SpecChain.


(** ** Python values

    What a cell of the frame, a default or an INSERT parameter can be.
    A float is identified by its [repr] (which round-trips in Python), NaN
    apart; a [Timestamp] by its ISO text: the script only tests floats for
    truth, prints values with [str] and hands them to the driver. *)
Inductive value : Type :=
| VNone                        (* None *)
| VNaN                         (* float('nan'), pandas' missing number *)
| VNaT                         (* pandas.NaT, the missing timestamp *)
| VBool (b : bool)
| VInt (n : Z)
| VFloat (repr : string)
| VStr (s : string)
| VTimestamp (iso : string).

Definition str_of_Z (n : Z) : string := NilZero.string_of_int (Z.to_int n).

(** [str(v)] *)
Definition py_str (v : value) : string :=
  match v with
  | VNone => "None"
  | VNaN => "nan"
  | VNaT => "NaT"
  | VBool true => "True"
  | VBool false => "False"
  | VInt n => str_of_Z n
  | VFloat r => r
  | VStr s => s
  | VTimestamp iso => iso
  end.

(** [bool(v)]: None, False, 0, 0.0, -0.0 and the empty string are falsy;
    NaN, being a non-zero float, is truthy. *)
Definition truthy (v : value) : bool :=
  match v with
  | VNone => false
  | VNaN => true
  | VNaT => true
  | VBool b => b
  | VInt n => negb (n =? 0)%Z
  | VFloat r => negb (String.eqb r "0.0" || String.eqb r "-0.0")
  | VStr s => negb (String.eqb s "")
  | VTimestamp _ => true
  end.

(** [v or 0], for a scalar [v]. *)
Definition zero_if_falsy (v : value) : value :=
  if truthy v then v else VInt 0.

(** [pd.notnull(v)] on a scalar. *)
Definition notnull (v : value) : bool :=
  match v with
  | VNone | VNaN | VNaT => false
  | _ => true
  end.

(** ** Exceptions and results *)

(** The calls the script makes on the connection and its cursor. *)
Inductive statement : Type :=
| CreateSchema                 (* CREATE SCHEMA IF NOT EXISTS migration; *)
| DropTable                    (* DROP TABLE IF EXISTS migration.migration_on_job_market; *)
| CreateTable                  (* CREATE TABLE migration.migration_on_job_market (...) *)
| Insert (params : list value) (* insert_query with its twelve parameters *).

Inductive event : Type :=
| Connect                      (* psycopg2.connect(...) *)
| Cursor                       (* conn.cursor() *)
| Execute (s : statement)      (* cur.execute(...) *)
| Commit                       (* conn.commit() *)
| CursorClose                  (* cur.close() *)
| ConnClose                    (* conn.close() *).

Inductive exn : Type :=
| Exception (msg : string)     (* raise Exception(f"Failed to fetch data: ...") *)
| KeyError (key : string)      (* a label that is not in the index *)
| ValueError                   (* pandas, on a repeated label: the truth
                                  value of a sub-Series, the conversion of
                                  a sub-frame to datetimes *)
| ProgrammingError             (* psycopg2: can't adapt type 'Series' *)
| ParserError                  (* raised inside pd.read_csv *)
| DatabaseError (at_call : event) (* raised by psycopg2 in the given call *).

Inductive result (A : Type) : Type :=
| Ok (a : A)
| Err (e : exn).
Arguments Ok {A} a.
Arguments Err {A} e.

Definition bind_result {A B} (r : result A) (k : A -> result B) : result B :=
  match r with
  | Ok a => k a
  | Err e => Err e
  end.

Declare Scope result_scope.
Delimit Scope result_scope with result.
Notation "x <- r ;; k" := (bind_result r (fun x => k))
  (at level 100, r at next level, right associativity) : result_scope.

(** ** The frame *)

Record DataFrame : Type := {
  columns : list string;       (* df.columns *)
  rows : list (list value)     (* one list of cells per data row *)
}.

(** Position of the first column carrying [key]: whether the label is
    there at all, and where its cell is when it is there once. *)
Fixpoint get_loc (key : string) (labels : list string) : option nat :=
  match labels with
  | [] => None
  | l :: ls =>
      if String.eqb l key then Some 0
      else option_map S (get_loc key ls)
  end.

Fixpoint distinct (labels : list string) : bool :=
  match labels with
  | [] => true
  | l :: ls =>
      match get_loc l ls with
      | None => distinct ls
      | Some _ => false
      end
  end.

(** The cell of [row] in position [i].  read_csv makes every row as long
    as the header, so the default is not reached on a frame it returns. *)
Definition cell (i : nat) (row : list value) : value := nth i row VNone.

(** How many columns carry [key]. *)
Fixpoint occurrences (key : string) (labels : list string) : nat :=
  match labels with
  | [] => 0
  | l :: ls => (if String.eqb l key then 1 else 0) + occurrences key ls
  end.

(** The renaming can give two columns the same label. *)
Definition repeated (key : string) (labels : list string) : bool :=
  (1 <? occurrences key labels)%nat.

(** The cells of [row] under the label [key], from left to right. *)
Fixpoint cells_at (key : string) (labels : list string) (row : list value)
  : list value :=
  match labels, row with
  | l :: ls, v :: vs =>
      if String.eqb l key then v :: cells_at key ls vs
      else cells_at key ls vs
  | _, _ => []
  end.

(** What a lookup by label in a row answers with: the cell when the label
    is there once, a sub-Series of the cells under it when it is
    repeated. *)
Inductive item : Type :=
| Scalar (v : value)
| Series (cells : list value).
Coercion Scalar : value >-> item.

Definition lookup (labels : list string) (row : list value) (key : string)
    (i : nat) : item :=
  if repeated key labels then Series (cells_at key labels row)
  else Scalar (cell i row).

(** [row[key]] *)
Definition getitem (labels : list string) (row : list value) (key : string)
  : result item :=
  match get_loc key labels with
  | Some i => Ok (lookup labels row key i)
  | None => Err (KeyError key)
  end.

(** [row.get(key, default)] *)
Definition get (labels : list string) (row : list value) (key : string)
    (default : value) : item :=
  match get_loc key labels with
  | Some i => lookup labels row key i
  | None => Scalar default
  end.

Fixpoint set_cell (i : nat) (v : value) (row : list value) : list value :=
  match row, i with
  | [], _ => []
  | _ :: r, O => v :: r
  | c :: r, S j => c :: set_cell j v r
  end.

(** [df[key] = new_column], for a label at position [i]. *)
Definition assign_column (i : nat) (new_column : list value)
    (rs : list (list value)) : list (list value) :=
  map (fun rv => set_cell i (snd rv) (fst rv)) (combine rs new_column).

(** ** The environment of one run *)

Record Response : Type := {
  status_code : Z;             (* response.status_code *)
  text : string                (* response.text *)
}.

(** What the script is given.  A GET that raises instead of answering (no
    network, a timeout) ends the run before anything else happens and is
    not part of a world. *)
Record World : Type := {
  (* os.getenv, after load_dotenv() *)
  getenv : string -> option string;
  (* requests.get(url, auth=HTTPBasicAuth(username, password)) *)
  requests_get : string -> option string -> option string -> Response;
  (* pd.read_csv(io.StringIO(text), sep=";", on_bad_lines="skip") *)
  read_csv : string -> option DataFrame;     (* None: the reader raised *)
  (* the permissive parser behind pd.to_datetime: the column it works on
     (formats are guessed per column), the cell, and the instant read
     from it, if any *)
  parse_datetime : list value -> value -> option string;
  (* whether the server lets a call succeed, given the calls before it *)
  db_accepts : list event -> event -> bool
}.

Definition KOBO_CSV_URL : string :=
  "https://kf.kobotoolbox.org/api/v2/assets/aHD4pamiAJvmTcRXsHuuT9/export-settings/esaKr7vPneA4yLfFtLqBw3R/data.csv".

Definition schema_name : string := "migration".
Definition table_name : string := "migration_on_job_market".

(** The columns of the CREATE TABLE statement, with their types. *)
Definition table_layout : list (string * string) :=
  [ ("id", "SERIAL PRIMARY KEY");
    ("start_time", "TIMESTAMP");
    ("end_time", "TIMESTAMP");
    ("gender", "TEXT");
    ("education_level", "TEXT");
    ("province_of_origin", "TEXT");
    ("age_range", "TEXT");
    ("rural_to_urban", "BOOLEAN");
    ("employment_status", "TEXT");
    ("months_to_first_job", "INT");
    ("monthly_income_rwf", "INT");
    ("job_applications_12m", "INT");
    ("job_changes", "INT") ].

(** The columns named by [insert_query], one [%s] each. *)
Definition insert_columns : list string :=
  [ "start_time"; "end_time"; "gender"; "education_level";
    "province_of_origin"; "age_range"; "rural_to_urban";
    "employment_status"; "months_to_first_job"; "monthly_income_rwf";
    "job_applications_12m"; "job_changes" ].

(** ** Step 1: fetch *)

Definition response (w : World) : Response :=
  requests_get w KOBO_CSV_URL
    (getenv w "KOBO_USERNAME") (getenv w "KOBO_PASSWORD").

Definition fetch_failure (status : Z) : exn :=
  Exception ("Failed to fetch data: " ++ str_of_Z status).

(** [if response.status_code != 200: raise Exception(...)], then the body. *)
Definition fetch (w : World) : result string :=
  if negb (status_code (response w) =? 200)%Z
  then Err (fetch_failure (status_code (response w)))
  else Ok (text (response w)).

(** ** Step 2: clean and normalize *)

(** The None fill on one cell of an object column: a missing cell
    becomes None. *)
Definition where_notnull (v : value) : value :=
  if notnull v then v else VNone.

Definition is_number (v : value) : bool :=
  match v with
  | VInt _ | VFloat _ | VNaN => true
  | _ => false
  end.

(** The columns pandas holds as int64 or float64: numbers and blanks,
    nothing else.  (A column with a text in it is an object column.) *)
Definition numeric_column (column : list value) : bool :=
  forallb is_number column.

(** [df.where(pd.notnull(df), None)] on a cell [v] of [column].  The
    script's call to read_csv ([on_bad_lines]) needs pandas 1.3 or later,
    where a numeric column takes the None fill as NaN: its blanks stay
    NaN.  Only an object column gets None. *)
Definition where_cell (column : list value) (v : value) : value :=
  if numeric_column column then v else where_notnull v.

(** The pass on one row of the frame whose rows are [rs], from column [j]
    on. *)
Fixpoint where_row (rs : list (list value)) (j : nat) (row : list value)
  : list value :=
  match row with
  | [] => []
  | v :: rest => where_cell (map (cell j) rs) v :: where_row rs (S j) rest
  end.

(** [pd.to_datetime(column, errors="coerce")]: a missing cell and a cell
    the parser cannot read both become NaT. *)
Definition to_datetime (parse : list value -> value -> option string)
    (column : list value) : list value :=
  map (fun v =>
         if notnull v then
           match parse column v with
           | Some iso => VTimestamp iso
           | None => VNaT
           end
         else VNaT)
      column.

(** [df[key] = pd.to_datetime(df[key], errors="coerce")].  On a repeated
    label [df[key]] is a sub-frame, which [pd.to_datetime] cannot assemble
    into datetimes: it raises a ValueError. *)
Definition convert_timestamp (w : World) (key : string) (df : DataFrame)
  : result DataFrame :=
  match get_loc key (columns df) with
  | None => Err (KeyError key)
  | Some i =>
      if repeated key (columns df) then Err ValueError
      else
        let column := map (cell i) (rows df) in
        Ok {| columns := columns df;
              rows := assign_column i (to_datetime (parse_datetime w) column)
                        (rows df) |}
  end.

Definition rename_columns (df : DataFrame) : DataFrame :=
  {| columns := canonicalize_columns (columns df); rows := rows df |}.

(** [df = df.where(pd.notnull(df), None)] *)
Definition nan_to_none (df : DataFrame) : DataFrame :=
  {| columns := columns df;
     rows := map (where_row (rows df) 0) (rows df) |}.

Definition normalize (w : World) (df : DataFrame) : result DataFrame :=
  (df1 <- convert_timestamp w "start" (nan_to_none (rename_columns df));;
   convert_timestamp w "end" df1)%result.

Definition parse_csv (w : World) (body : string) : result DataFrame :=
  match read_csv w body with
  | Some df => Ok df
  | None => Err ParserError
  end.

(** Steps 1 and 2 together: everything before [psycopg2.connect]. *)
Definition extract (w : World) : result DataFrame :=
  (body <- fetch w;;
   df <- parse_csv w body;;
   normalize w df)%result.

(** ** Step 3: upload *)

(** Calls on the connection append to the trace; an exception stops the
    run where it is raised, with the trace as it then stands. *)
Definition DB (A : Type) : Type := list event -> result A * list event.

Definition ret {A} (a : A) : DB A := fun tr => (Ok a, tr).

Definition bind {A B} (m : DB A) (k : A -> DB B) : DB B :=
  fun tr =>
    match m tr with
    | (Ok a, tr') => k a tr'
    | (Err e, tr') => (Err e, tr')
    end.

(** A computation that does not touch the connection. *)
Definition lift {A} (r : result A) : DB A := fun tr => (r, tr).

(** One call on the connection or the cursor. *)
Definition call (w : World) (e : event) : DB unit :=
  fun tr =>
    (if db_accepts w tr e then Ok tt else Err (DatabaseError e), tr ++ [e]).

Declare Scope db_scope.
Delimit Scope db_scope with db.
Notation "x <- m ;; k" := (bind m (fun x => k))
  (at level 100, m at next level, right associativity) : db_scope.
Notation "m ;; k" := (bind m (fun _ => k))
  (at level 100, right associativity) : db_scope.

(** The labels the insert loop looks up. *)
Definition START := "start".
Definition END_ := "end".
Definition GENDER := "gender".
Definition EDUCATION := "current_highest_level_of_education".
Definition PROVINCE := "province_of_origin".
Definition AGE_RANGE := "what_was_your_age_range_at_the_time_of_migration".
Definition RURAL := "did_you_migrate_from_a_rural_area_to_this_urban_area".
Definition EMPLOYMENT :=
  "what_is_your_current_employment_status_in_this_urban_area".
Definition MONTHS :=
  "how_many_months_did_it_take_you_to_get_your_first_job_after_arriving_in_the_city".
Definition INCOME := "what_is_your_current_average_monthly_income_(rwf)".
Definition APPLICATIONS :=
  "in_the_last_12_months,_how_many_job_applications_have_you_submitted_in_this_urban_area".
Definition JOB_CHANGES :=
  "how_many_times_have_you_changed_jobs_since_moving_to_the_city".

(** The eleven labels looked up with [row[...]], in the order of the
    tuple; [RURAL] is the one looked up with [row.get(..., "")]. *)
Definition indexed_labels : list string :=
  [ START; END_; GENDER; EDUCATION; PROVINCE; AGE_RANGE; EMPLOYMENT;
    MONTHS; INCOME; APPLICATIONS; JOB_CHANGES ].

(** [str(x).strip().lower() == "yes"].  The [str] of a sub-Series is its
    listing, one line per cell and a closing line with the dtype: whatever
    the cells, it is not [yes]. *)
Definition is_yes (x : item) : bool :=
  match x with
  | Scalar v => String.eqb (Str.lower (Str.strip (py_str v))) "yes"
  | Series _ => false
  end.

(** [str(row.get(RURAL, "")).strip().lower() == "yes"] *)
Definition rural_to_urban (labels : list string) (row : list value) : bool :=
  is_yes (get labels row RURAL (VStr "")).

(** [x or 0].  The truth value of a sub-Series is ambiguous: pandas raises
    a ValueError. *)
Definition or_0 (x : item) : result item :=
  match x with
  | Scalar v => Ok (Scalar (zero_if_falsy v))
  | Series _ => Err ValueError
  end.

(** [row[key] or 0] *)
Definition getitem_or_0 (labels : list string) (row : list value)
    (key : string) : result item :=
  (x <- getitem labels row key;; or_0 x)%result.

(** The tuple of lines 121 to 134: its components are evaluated left to
    right before [cur.execute] is called. *)
Definition insert_tuple (labels : list string) (row : list value)
  : result (list item) :=
  (start_time <- getitem labels row START;;
   end_time <- getitem labels row END_;;
   gender <- getitem labels row GENDER;;
   education_level <- getitem labels row EDUCATION;;
   province_of_origin <- getitem labels row PROVINCE;;
   age_range <- getitem labels row AGE_RANGE;;
   let rural := Scalar (VBool (rural_to_urban labels row)) in
   employment_status <- getitem labels row EMPLOYMENT;;
   months_to_first_job <- getitem_or_0 labels row MONTHS;;
   monthly_income_rwf <- getitem_or_0 labels row INCOME;;
   job_applications_12m <- getitem_or_0 labels row APPLICATIONS;;
   job_changes <- getitem_or_0 labels row JOB_CHANGES;;
   Ok [ start_time; end_time; gender; education_level;
        province_of_origin; age_range; rural; employment_status;
        months_to_first_job; monthly_income_rwf; job_applications_12m;
        job_changes ])%result.

(** What [cur.execute] does with its arguments before anything is sent:
    each one is adapted to SQL, and the driver has no adapter for a
    Series.  The ProgrammingError is raised on the client: no statement
    goes to the server, and none is added to the trace. *)
Fixpoint adapt (args : list item) : result (list value) :=
  match args with
  | [] => Ok []
  | Scalar v :: rest => (vs <- adapt rest;; Ok (v :: vs))%result
  | Series _ :: _ => Err ProgrammingError
  end.

(** The parameters of one INSERT: the tuple, then its adaptation. *)
Definition insert_params (labels : list string) (row : list value)
  : result (list value) :=
  (args <- insert_tuple labels row;; adapt args)%result.

(** [for _, row in df.iterrows(): cur.execute(insert_query, (...))] *)
Fixpoint insert_rows (w : World) (labels : list string)
    (rs : list (list value)) : DB unit :=
  match rs with
  | [] => ret tt
  | row :: rest =>
      (params <- lift (insert_params labels row);;
       call w (Execute (Insert params));;
       insert_rows w labels rest)%db
  end.

Definition connect (w : World) : DB unit := call w Connect.

(** Lines 72 to 138 of the script. *)
Definition load (w : World) (df : DataFrame) : DB unit :=
  (connect w;;
   call w Cursor;;
   call w (Execute CreateSchema);;
   call w (Execute DropTable);;
   call w (Execute CreateTable);;
   insert_rows w (columns df) (rows df);;
   call w Commit;;
   call w CursorClose;;
   call w ConnClose)%db.

(** The whole script: how it ends, and the calls it made on the database. *)
Definition run (w : World) : result unit * list event :=
  match extract w with
  | Err e => (Err e, [])
  | Ok df => load w df []
  end.

Definition outcome (w : World) : result unit := fst (run w).
Definition trace (w : World) : list event := snd (run w).

(** ** Reading a trace *)

Definition is_insert (e : event) : bool :=
  match e with
  | Execute (Insert _) => true
  | _ => false
  end.

(** The two calls that acquire a resource. *)
Definition is_acquire (e : event) : bool :=
  match e with
  | Connect | Cursor => true
  | _ => false
  end.

Definition is_close (e : event) : bool :=
  match e with
  | CursorClose | ConnClose => true
  | _ => false
  end.

(** Statuses the specification counts as success. *)
Definition is_2xx (status : Z) : bool :=
  ((200 <=? status) && (status <? 300))%Z.

(** An exception raised before either [close] call is reached. *)
Definition raised_before_close (e : exn) : bool :=
  match e with
  | DatabaseError CursorClose | DatabaseError ConnClose => false
  | _ => true
  end.

(** The five calls that open every upload, and the three that end one. *)
Definition prologue : list event :=
  [ Connect; Cursor; Execute CreateSchema; Execute DropTable;
    Execute CreateTable ].

Definition epilogue : list event := [ Commit; CursorClose; ConnClose ].

(** The first label of the tuple that the frame does not have. *)
Definition first_missing (labels : list string) : option string :=
  find (fun key => match get_loc key labels with
                   | None => true
                   | Some _ => false
                   end)
       indexed_labels.

(** The four labels read with [row[...] or 0]. *)
Definition integer_labels : list string :=
  [ MONTHS; INCOME; APPLICATIONS; JOB_CHANGES ].

(** The values Python takes for false: missing, empty and zero-like. *)
Definition zero_like : list value :=
  [ VNone; VBool false; VInt 0; VFloat "0.0"; VFloat "-0.0"; VStr "" ].

(** The cell of [row] under a label that is there once. *)
Definition at_label (labels : list string) (row : list value)
    (key : string) : value :=
  match get_loc key labels with
  | Some i => cell i row
  | None => VNone
  end.

(** The parameters of one INSERT when nothing raises. *)
Definition params_of (labels : list string) (row : list value) : list value :=
  [ at_label labels row START; at_label labels row END_;
    at_label labels row GENDER; at_label labels row EDUCATION;
    at_label labels row PROVINCE; at_label labels row AGE_RANGE;
    VBool (rural_to_urban labels row);
    at_label labels row EMPLOYMENT;
    zero_if_falsy (at_label labels row MONTHS);
    zero_if_falsy (at_label labels row INCOME);
    zero_if_falsy (at_label labels row APPLICATIONS);
    zero_if_falsy (at_label labels row JOB_CHANGES) ].

(** The labels of the tuple whose value goes to the driver as it is. *)
Definition passed_labels : list string :=
  [ START; END_; GENDER; EDUCATION; PROVINCE; AGE_RANGE; EMPLOYMENT ].

(** The exception one row of the loop ends on, if any.  It depends on the
    labels only: the lookups come first, in the order of the tuple (a
    missing label is a KeyError, a repeated one under [or 0] a
    ValueError), then the adaptation (a repeated label among those passed
    as they are leaves a Series in the tuple). *)
Fixpoint lookup_error (labels : list string) (keys : list string)
  : option exn :=
  match keys with
  | [] => None
  | key :: rest =>
      match get_loc key labels with
      | None => Some (KeyError key)
      | Some _ =>
          if existsb (String.eqb key) integer_labels && repeated key labels
          then Some ValueError
          else lookup_error labels rest
      end
  end.

Definition tuple_error (labels : list string) : option exn :=
  match lookup_error labels indexed_labels with
  | Some e => Some e
  | None =>
      if existsb (fun key => repeated key labels) passed_labels
      then Some ProgrammingError
      else None
  end.

Definition inserts (labels : list string) (rs : list (list value))
  : list event :=
  map (fun row => Execute (Insert (params_of labels row))) rs.

(** The exception the insert loop raises, if it does: the loop body runs
    only when there is a row. *)
Definition loop_raises (df : DataFrame) : option exn :=
  match rows df with
  | [] => None
  | _ :: _ => tuple_error (columns df)
  end.

(** The calls of an upload that nothing interrupts. *)
Definition plan (df : DataFrame) : list event :=
  prologue ++ inserts (columns df) (rows df) ++ epilogue.

(** A list of calls made one after the other. *)
Fixpoint calls (w : World) (evs : list event) : DB unit :=
  match evs with
  | [] => ret tt
  | e :: rest => (call w e;; calls w rest)%db
  end.

(** The three ways an upload can end: the server refuses the call in
    position [n] of the plan, the loop raises on its first row right
    after the prologue, or every call of the plan goes through. *)
Inductive load_shape (w : World) (df : DataFrame)
  : result unit * list event -> Prop :=
| refused (n : nat) (ev : event) :
    nth_error (plan df) n = Some ev ->
    loop_raises df = None \/ (n < List.length prologue)%nat ->
    db_accepts w (firstn n (plan df)) ev = false ->
    load_shape w df (Err (DatabaseError ev), firstn (S n) (plan df))
| raised (e : exn) :
    loop_raises df = Some e ->
    load_shape w df (Err e, prologue)
| completed :
    loop_raises df = None ->
    load_shape w df (Ok tt, plan df).

(** ** Predicates on labels *)

(** Characters [str.lower] leaves alone. *)
Definition lowered (c : ascii) : bool := Ascii.eqb (Str.lower_char c) c.

(** Characters the chain leaves alone: already lower case and none of the
    four it replaces. *)
Definition canonical_char (c : ascii) : bool :=
  Ascii.eqb (Str.lower_char c) c
  && negb (Ascii.eqb c "?") && negb (Ascii.eqb c " ")
  && negb (Ascii.eqb c "&") && negb (Ascii.eqb c "-").

(** The only whitespace character allowed is the plain space. *)
Definition plain_space_only (c : ascii) : bool :=
  negb (Str.isspace c) || Ascii.eqb c " ".

Definition not_space (c : ascii) : bool := negb (Str.isspace c).

(** ** The INSERT statement *)

(** [insert_query], the f-string of lines 103 to 118 with the two names
    filled in. *)
Definition insert_query : string :=
  ("
INSERT INTO " ++ schema_name ++ "." ++ table_name ++ " (
    start_time,
    end_time,
    gender,
    education_level,
    province_of_origin,
    age_range,
    rural_to_urban,
    employment_status,
    months_to_first_job,
    monthly_income_rwf,
    job_applications_12m,
    job_changes
) VALUES (%s, %s, %s, %s, %s, %s, %s, %s, %s, %s, %s, %s)
")%string.

(** The number of [%s] placeholders of a query: the number of parameters
    the driver wants with it. *)
Fixpoint placeholders (query : string) : nat :=
  match query with
  | EmptyString => 0
  | String c rest =>
      match rest with
      | String d rest' =>
          if Ascii.eqb c "%" && Ascii.eqb d "s" then S (placeholders rest')
          else placeholders rest
      | EmptyString => 0
      end
  end.

(** The text after the first [c], and the text before it. *)
Fixpoint after (c : ascii) (s : string) : string :=
  match s with
  | EmptyString => EmptyString
  | String d rest => if Ascii.eqb d c then rest else after c rest
  end.

Fixpoint before (c : ascii) (s : string) : string :=
  match s with
  | EmptyString => EmptyString
  | String d rest =>
      if Ascii.eqb d c then EmptyString else String d (before c rest)
  end.

(** [s.split(c)] *)
Fixpoint split (c : ascii) (s : string) : list string :=
  match s with
  | EmptyString => [EmptyString]
  | String d rest =>
      if Ascii.eqb d c then EmptyString :: split c rest
      else match split c rest with
           | piece :: pieces => String d piece :: pieces
           | [] => [String d EmptyString]
           end
  end.

(** The column names between the first pair of parentheses of a query. *)
Definition named_columns (query : string) : list string :=
  map Str.strip (split "," (before ")" (after "(" query))).

(** ** More predicates on values, frames and exceptions *)

(** What [pd.to_datetime(..., errors="coerce")] leaves in a column. *)
Definition instant_or_NaT (v : value) : bool :=
  match v with
  | VNaT | VTimestamp _ => true
  | _ => false
  end.

(** Every row has one cell per column, as in a frame read by read_csv. *)
Definition rectangular (df : DataFrame) : bool :=
  forallb (fun row => Nat.eqb (List.length row) (List.length (columns df)))
    (rows df).

(** An exception raised before [conn.commit()] is reached. *)
Definition raised_before_commit (e : exn) : bool :=
  match e with
  | DatabaseError Commit | DatabaseError CursorClose
  | DatabaseError ConnClose => false
  | _ => true
  end.

(** ** The text [yes], spelled out *)

(** The whitespace characters of Python below code point 256: TAB, LF, VT,
    FF, CR, FS, GS, RS, US, SPACE, NEL and NBSP. *)
Definition whitespace_codes : list N :=
  [ 9; 10; 11; 12; 13; 28; 29; 30; 31; 32; 133; 160 ]%N.

Definition is_whitespace (c : ascii) : bool :=
  existsb (N.eqb (N_of_ascii c)) whitespace_codes.

(** A text that, trimmed and with its case folded, is [yes]: the letters
    y, e and s, each in either case, with whitespace and nothing else
    before and after. *)
Definition reads_yes (s : string) : Prop :=
  exists l y e z r,
    s = (l ++ String y (String e (String z r)))%string
    /\ Str.all is_whitespace l = true /\ Str.all is_whitespace r = true
    /\ (y = "y" \/ y = "Y")%char /\ (e = "e" \/ e = "E")%char
    /\ (z = "s" \/ z = "S")%char.

(** The characters of the decimal text of an integer. *)
Definition digit_or_minus (c : ascii) : bool :=
  existsb (Ascii.eqb c)
    [ "0"; "1"; "2"; "3"; "4"; "5"; "6"; "7"; "8"; "9"; "-" ]%char.

(** ** Sample data *)

Module Sample.

(** The header row of the export, as the form writes it. *)
Definition raw_header : list string :=
  [ "start"; "end"; "Gender"; "Current highest level of education";
    "Province of origin";
    "What was your age range at the time of migration?";
    "Did you migrate from a rural area to this urban area?";
    "What is your current employment status in this urban area?";
    "How many months did it take you to get your first job after arriving in the city?";
    "What is your current average monthly income (RWF)?";
    "In the last 12 months, how many job applications have you submitted in this urban area?";
    "How many times have you changed jobs since moving to the city?" ].

Definition without (label : string) (labels : list string) : list string :=
  filter (fun l => negb (String.eqb l label)) labels.

Definition income_header : string :=
  "What is your current average monthly income (RWF)?".

Definition rural_header : string :=
  "Did you migrate from a rural area to this urban area?".

(** One answer: a migrant who typed [YES ] and left the income blank. *)
Definition answer : list value :=
  [ VStr "2024-03-01T09:15:00"; VStr "2024-03-01T09:32:10";
    VStr "Female"; VStr "Secondary"; VStr "Northern"; VStr "18-25";
    VStr "YES "; VStr "Employed"; VInt 4; VNaN; VInt 7; VInt 0 ].

(** A complete answer with a start time nobody can read. *)
Definition answer_bad_start : list value :=
  [ VStr "not a date"; VStr "2024-03-01T09:32:10";
    VStr "Female"; VStr "Secondary"; VStr "Northern"; VStr "18-25";
    VStr "YES "; VStr "Employed"; VInt 4; VInt 250000; VInt 7; VInt 0 ].

(** The answer as read from an export without the income column, and from
    one without the rural-migration column. *)
Definition answer_without_income : list value :=
  [ VStr "2024-03-01T09:15:00"; VStr "2024-03-01T09:32:10";
    VStr "Female"; VStr "Secondary"; VStr "Northern"; VStr "18-25";
    VStr "YES "; VStr "Employed"; VInt 4; VInt 7; VInt 0 ].

Definition answer_without_rural : list value :=
  [ VStr "2024-03-01T09:15:00"; VStr "2024-03-01T09:32:10";
    VStr "Female"; VStr "Secondary"; VStr "Northern"; VStr "18-25";
    VStr "Employed"; VInt 4; VNaN; VInt 7; VInt 0 ].

(** The answer as read from an export where the months column holds text
    (another line of the file has a word in it). *)
Definition answer_text_months : list value :=
  [ VStr "2024-03-01T09:15:00"; VStr "2024-03-01T09:32:10";
    VStr "Female"; VStr "Secondary"; VStr "Northern"; VStr "18-25";
    VStr "YES "; VStr "Employed"; VStr "12"; VNaN; VInt 7; VInt 0 ].

(** A parser that reads every text but [not a date]. *)
Definition parse (column : list value) (v : value) : option string :=
  match v with
  | VStr s => if String.eqb s "not a date" then None else Some s
  | _ => None
  end.

(** A header whose canonical form still starts with a TAB. *)
Definition tab_header : string := String "?" (String "009" "a").

(** A header with the rural-migration question twice, the second time
    without its question mark, and an answer to both. *)
Definition rural_twice_header : list string :=
  raw_header ++ [ "Did you migrate from a rural area to this urban area" ].

Definition answer_rural_twice : list value := answer ++ [ VStr "yes" ].

(** An export with two start columns, [Start ] and [start], which the
    renaming gives the same label. *)
Definition start_twice_header : list string := "Start " :: raw_header.

Definition answer_start_twice : list value :=
  VStr "2024-03-01T09:15:00" :: answer.

Definition accept_all (tr : list event) (e : event) : bool := true.

(** A server that turns down one kind of call. *)
Definition refuse (bad : event -> bool) (tr : list event) (e : event)
  : bool := negb (bad e).

(** A server that has no timestamp to store for NaT: the driver renders
    it through its datetime adapter as the literal ['NaT'], which is not
    valid input for a TIMESTAMP column. *)
Definition has_NaT_timestamp (e : event) : bool :=
  match e with
  | Execute (Insert (VNaT :: _)) | Execute (Insert (_ :: VNaT :: _)) => true
  | _ => false
  end.

Definition is_create_table (e : event) : bool :=
  match e with
  | Execute CreateTable => true
  | _ => false
  end.

(** A world that answers the GET with [status], whose body reads as [df],
    and whose database behaves as [server]. *)
Definition world (status : Z) (df : DataFrame)
    (server : list event -> event -> bool) : World :=
  {| getenv := fun _ => None;
     requests_get := fun _ _ _ => {| status_code := status; text := "" |};
     read_csv := fun _ => Some df;
     parse_datetime := parse;
     db_accepts := server |}.

Definition full : DataFrame :=
  {| columns := raw_header; rows := [answer] |}.

Definition bad_start : DataFrame :=
  {| columns := raw_header; rows := [answer_bad_start] |}.

Definition no_income : DataFrame :=
  {| columns := without income_header raw_header;
     rows := [answer_without_income] |}.


Definition no_rural : DataFrame :=
  {| columns := without rural_header raw_header;
     rows := [answer_without_rural] |}.


Definition no_rows : DataFrame :=
  {| columns := raw_header; rows := [] |}.

Definition start_twice : DataFrame :=
  {| columns := start_twice_header; rows := [answer_start_twice] |}.

End Sample.

(** * Properties *)

(** ** Characters *)

Ltac each_char c :=
  destruct c as [[] [] [] [] [] [] [] []]; try reflexivity; try discriminate.

Lemma lower_char_idempotent (c : ascii) :
  Str.lower_char (Str.lower_char c) = Str.lower_char c.
Proof. each_char c. Qed.

Lemma lower_char_plain_space (c : ascii) :
  plain_space_only c = true -> plain_space_only (Str.lower_char c) = true.
Proof. each_char c. Qed.

Lemma plain_no_space_is_not_space (c : ascii) :
  plain_space_only c && negb (Ascii.eqb c " ") = true -> not_space c = true.
Proof. each_char c. Qed.

(** ** Strings *)

Section AllChars.

Variables p q : ascii -> bool.

Lemma all_append (s t : string) :
  Str.all p (s ++ t) = Str.all p s && Str.all p t.
Proof.
  induction s as [|c s IH]; simpl; [reflexivity|].
  now rewrite IH, andb_assoc.
Qed.

Lemma all_impl (s : string) :
  (forall c, p c = true -> q c = true) ->
  Str.all p s = true -> Str.all q s = true.
Proof.
  intros Hpq. induction s as [|c s IH]; simpl; [reflexivity|].
  intros [Hc Hs]%andb_prop. now rewrite (Hpq c Hc), IH.
Qed.

Lemma all_lstrip (s : string) :
  Str.all p s = true -> Str.all p (Str.lstrip s) = true.
Proof.
  induction s as [|c s IH]; simpl; [reflexivity|].
  intros H. destruct (Str.isspace c); [|exact H].
  apply andb_prop in H. now apply IH.
Qed.

Lemma all_rstrip (s : string) :
  Str.all p s = true -> Str.all p (Str.rstrip s) = true.
Proof.
  induction s as [|c s IH]; simpl; [reflexivity|].
  intros [Hc Hs]%andb_prop. specialize (IH Hs).
  destruct (Str.rstrip s) as [|d r].
  - destruct (Str.isspace c); simpl; [reflexivity|now rewrite Hc].
  - change (p c && Str.all p (String d r) = true). now rewrite Hc, IH.
Qed.

Lemma all_strip (s : string) :
  Str.all p s = true -> Str.all p (Str.strip s) = true.
Proof. intros H. now apply all_rstrip, all_lstrip. Qed.

(** A replacement keeps [p] when the inserted text has it. *)
Lemma all_replace (old : ascii) (new s : string) :
  Str.all p new = true -> Str.all p s = true ->
  Str.all p (Str.replace old new s) = true.
Proof.
  intros Hnew. induction s as [|c s IH]; simpl; [reflexivity|].
  intros [Hc Hs]%andb_prop. destruct (Ascii.eqb c old).
  - now rewrite all_append, Hnew, IH.
  - simpl. now rewrite Hc, IH.
Qed.

End AllChars.

(** After a replacement the replaced character is gone, provided the
    inserted text does not bring it back. *)
Lemma all_replace_gone (p : ascii -> bool) (old : ascii) (new s : string) :
  Str.all (fun c => p c && negb (Ascii.eqb c old)) new = true ->
  Str.all p s = true ->
  Str.all (fun c => p c && negb (Ascii.eqb c old)) (Str.replace old new s)
  = true.
Proof.
  intros Hnew. induction s as [|c s IH]; simpl; [reflexivity|].
  intros [Hc Hs]%andb_prop. destruct (Ascii.eqb c old) eqn:E.
  - now rewrite all_append, Hnew, IH.
  - simpl. now rewrite Hc, E, IH.
Qed.

Lemma replace_absent (old : ascii) (new s : string) :
  Str.all (fun c => negb (Ascii.eqb c old)) s = true ->
  Str.replace old new s = s.
Proof.
  induction s as [|c s IH]; simpl; [reflexivity|].
  intros [Hc Hs]%andb_prop. apply negb_true_iff in Hc.
  now rewrite Hc, IH.
Qed.

Lemma lower_fixed (s : string) :
  Str.all (fun c => Ascii.eqb (Str.lower_char c) c) s = true ->
  Str.lower s = s.
Proof.
  induction s as [|c s IH]; simpl; [reflexivity|].
  intros [Hc Hs]%andb_prop. apply Ascii.eqb_eq in Hc.
  now rewrite Hc, IH.
Qed.

Lemma all_lower (p : ascii -> bool) (s : string) :
  (forall c, p c = true -> p (Str.lower_char c) = true) ->
  Str.all p s = true -> Str.all p (Str.lower s) = true.
Proof.
  intros Hp. induction s as [|c s IH]; simpl; [reflexivity|].
  intros [Hc Hs]%andb_prop. now rewrite (Hp c Hc), IH.
Qed.

Lemma lower_is_lowered (s : string) :
  Str.all (fun c => Ascii.eqb (Str.lower_char c) c) (Str.lower s) = true.
Proof.
  induction s as [|c s IH]; simpl; [reflexivity|].
  now rewrite lower_char_idempotent, Ascii.eqb_refl, IH.
Qed.

Lemma lstrip_no_space (s : string) :
  Str.all not_space s = true -> Str.lstrip s = s.
Proof.
  destruct s as [|c s]; simpl; [reflexivity|].
  unfold not_space at 1. intros [Hc _]%andb_prop.
  apply negb_true_iff in Hc. now rewrite Hc.
Qed.

Lemma rstrip_no_space (s : string) :
  Str.all not_space s = true -> Str.rstrip s = s.
Proof.
  induction s as [|c s IH]; simpl; [reflexivity|].
  unfold not_space at 1. intros [Hc Hs]%andb_prop.
  apply negb_true_iff in Hc. rewrite (IH Hs), Hc. now destruct s.
Qed.

Lemma strip_no_space (s : string) :
  Str.all not_space s = true -> Str.strip s = s.
Proof.
  intros H. unfold Str.strip. rewrite (lstrip_no_space s H).
  now apply rstrip_no_space.
Qed.

(** ** The canonicalization chain *)

(** A canonical label is made of canonical characters only. *)
Lemma canonicalize_canonical (label : string) :
  Str.all canonical_char (canonicalize label) = true.
Proof.
  unfold canonicalize.
  apply (all_replace_gone
           (fun c => lowered c && negb (Ascii.eqb c "?")
                     && negb (Ascii.eqb c " ") && negb (Ascii.eqb c "&"))
           "-" "_"); [reflexivity|].
  apply (all_replace_gone
           (fun c => lowered c && negb (Ascii.eqb c "?")
                     && negb (Ascii.eqb c " "))
           "&" "and"); [reflexivity|].
  apply (all_replace_gone
           (fun c => lowered c && negb (Ascii.eqb c "?")) " " "_");
    [reflexivity|].
  apply (all_replace_gone lowered "?" ""); [reflexivity|].
  apply lower_is_lowered.
Qed.

(** On a string of canonical characters only [strip] can still act. *)
Lemma canonicalize_on_canonical (s : string) :
  Str.all canonical_char s = true -> canonicalize s = Str.strip s.
Proof.
  intros H. apply (all_strip canonical_char) in H.
  unfold canonicalize.
  assert (L : Str.lower (Str.strip s) = Str.strip s).
  { apply lower_fixed. revert H. apply all_impl.
    intros c. unfold canonical_char.
    now intros [[[[Hc _]%andb_prop _]%andb_prop _]%andb_prop _]%andb_prop. }
  rewrite L.
  rewrite (replace_absent "?").
  2:{ revert H. apply all_impl. intros c. unfold canonical_char.
      now intros [[[[_ Hc]%andb_prop _]%andb_prop _]%andb_prop _]%andb_prop. }
  rewrite (replace_absent " ").
  2:{ revert H. apply all_impl. intros c. unfold canonical_char.
      now intros [[[_ Hc]%andb_prop _]%andb_prop _]%andb_prop. }
  rewrite (replace_absent "&").
  2:{ revert H. apply all_impl. intros c. unfold canonical_char.
      now intros [[_ Hc]%andb_prop _]%andb_prop. }
  apply replace_absent.
  revert H. apply all_impl. intros c. unfold canonical_char.
  now intros [_ Hc]%andb_prop.
Qed.

(** A second pass of the chain only trims. *)
Lemma canonicalize_twice (label : string) :
  canonicalize (canonicalize label) = Str.strip (canonicalize label).
Proof. apply canonicalize_on_canonical, canonicalize_canonical. Qed.

(** A label whose only whitespace is the plain space has a canonical form
    without any whitespace. *)
Lemma canonicalize_no_space (label : string) :
  Str.all plain_space_only label = true ->
  Str.all not_space (canonicalize label) = true.
Proof.
  intros H. unfold canonicalize.
  apply all_replace; [reflexivity|].
  apply all_replace; [reflexivity|].
  apply (all_impl (fun c => plain_space_only c && negb (Ascii.eqb c " ")));
    [exact plain_no_space_is_not_space|].
  apply all_replace_gone; [reflexivity|].
  apply all_replace; [reflexivity|].
  apply all_lower; [exact lower_char_plain_space|].
  now apply all_strip.
Qed.

Lemma canonicalize_idempotent_plain (label : string) :
  Str.all plain_space_only label = true ->
  canonicalize (canonicalize label) = canonicalize label.
Proof.
  intros H. rewrite canonicalize_twice.
  now apply strip_no_space, canonicalize_no_space.
Qed.

(** C4, as the specification states it, at the header [?<TAB>a]: one pass
    gives [<TAB>a], a second pass gives [a]. *)
Lemma canonicalize_not_idempotent_after_question_mark :
  canonicalize Sample.tab_header = String "009" "a"
  /\ canonicalize (canonicalize Sample.tab_header) = "a"
  /\ canonicalize (canonicalize Sample.tab_header)
     <> canonicalize Sample.tab_header.
Proof. repeat split. discriminate. Qed.

(** C4 (amended): [canonicalize] is the six steps of the specification
    applied in its order; a second pass does nothing but trim, so it
    returns the result of the first pass exactly when that result neither
    starts nor ends with whitespace, which is the case of every header
    whose only whitespace characters are plain spaces. *)
Theorem canonicalize_is_chain_idempotent_when_trimmed (label : string) :
  canonicalize label = SpecChain.chain label
  /\ (canonicalize (canonicalize label) = canonicalize label
      <-> Str.strip (canonicalize label) = canonicalize label)
  /\ (Str.all plain_space_only label = true ->
      canonicalize (canonicalize label) = canonicalize label).
Proof.
  split; [reflexivity|]. split.
  - now rewrite canonicalize_twice.
  - apply canonicalize_idempotent_plain.
Qed.

(** The theorem at the income header of the form. *)
Lemma canonicalize_is_chain_idempotent_when_trimmed_witness :
  canonicalize Sample.income_header = INCOME
  /\ canonicalize (canonicalize Sample.income_header)
     = canonicalize Sample.income_header.
Proof.
  split; [reflexivity|].
  apply (canonicalize_is_chain_idempotent_when_trimmed Sample.income_header).
  reflexivity.
Defined.

(** ** Step 1: the status check *)

Lemma to_int_digits (z : Z) :
  Z.to_int z <> Decimal.Pos Decimal.Nil
  /\ Z.to_int z <> Decimal.Neg Decimal.Nil.
Proof.
  destruct z as [|p|p]; simpl; split; try discriminate;
    intros [= H]; now apply (DecimalPos.Unsigned.to_uint_nonnil p).
Qed.

(** The decimal text of a number determines the number. *)
Lemma str_of_Z_inj (a b : Z) : str_of_Z a = str_of_Z b -> a = b.
Proof.
  unfold str_of_Z. intros H.
  apply (f_equal NilZero.int_of_string) in H.
  rewrite !NilZero.isi in H by apply to_int_digits.
  injection H as H. now apply DecimalZ.to_int_inj.
Qed.

(** The exception of the fetch step carries the status: two statuses with
    the same message are the same status. *)
Lemma fetch_failure_inj (s s' : Z) :
  fetch_failure s = fetch_failure s' -> s = s'.
Proof.
  unfold fetch_failure. intros [= H]. now apply str_of_Z_inj.
Qed.

Lemma fetch_200 (w : World) :
  status_code (response w) = 200%Z -> fetch w = Ok (text (response w)).
Proof. unfold fetch. now intros ->. Qed.

Lemma fetch_not_200 (w : World) :
  status_code (response w) <> 200%Z ->
  fetch w = Err (fetch_failure (status_code (response w))).
Proof.
  unfold fetch. intros H.
  destruct (Z.eqb_spec (status_code (response w)) 200); [contradiction|].
  reflexivity.
Qed.

Lemma not_2xx_not_200 (status : Z) : is_2xx status = false -> status <> 200%Z.
Proof. intros H ->. discriminate. Qed.

(** A run whose fetch fails ends there, before [psycopg2.connect]. *)
Lemma run_fetch_failure (w : World) :
  status_code (response w) <> 200%Z ->
  run w = (Err (fetch_failure (status_code (response w))), []).
Proof.
  intros H. unfold run, extract. now rewrite (fetch_not_200 w H).
Qed.

(** C1, as the specification states it, at status 204: a 2xx status on
    which the fetch step raises. *)
Lemma fetch_raises_on_204 :
  is_2xx 204 = true
  /\ fetch (Sample.world 204 Sample.full Sample.accept_all)
     = Err (Exception "Failed to fetch data: 204").
Proof. split; reflexivity. Qed.

(** C1 (amended): the fetch step succeeds on status 200 and on no other,
    returning the body as text; on every other status, the other 2xx
    statuses included, it raises an exception that carries the status.
    No status does neither. *)
Theorem fetch_succeeds_exactly_on_200 (w : World) :
  ((status_code (response w) = 200%Z
    /\ fetch w = Ok (text (response w)))
   \/ (status_code (response w) <> 200%Z
       /\ fetch w = Err (fetch_failure (status_code (response w)))))
  /\ (forall s s' : Z, fetch_failure s = fetch_failure s' -> s = s').
Proof.
  split; [|exact fetch_failure_inj].
  destruct (Z.eq_dec (status_code (response w)) 200) as [E|N].
  - left. split; [exact E|now apply fetch_200].
  - right. split; [exact N|now apply fetch_not_200].
Qed.

(** C7: when the GET answers with a failure status, the run ends with the
    exception of the fetch step and no call at all has been made on the
    database: nothing is dropped, created or inserted. *)
Theorem failed_fetch_leaves_database_untouched (w : World) :
  is_2xx (status_code (response w)) = false ->
  outcome w = Err (fetch_failure (status_code (response w)))
  /\ trace w = [].
Proof.
  intros H. unfold outcome, trace.
  now rewrite (run_fetch_failure w (not_2xx_not_200 _ H)).
Qed.

(** The theorem at status 401. *)
Lemma failed_fetch_leaves_database_untouched_witness :
  is_2xx 401 = false
  /\ outcome (Sample.world 401 Sample.full Sample.accept_all)
     = Err (Exception "Failed to fetch data: 401")
  /\ trace (Sample.world 401 Sample.full Sample.accept_all) = [].
Proof.
  split; [reflexivity|].
  apply (failed_fetch_leaves_database_untouched
           (Sample.world 401 Sample.full Sample.accept_all)).
  reflexivity.
Defined.

(** ** The tuple of one INSERT *)

Lemma getitem_absent (labels : list string) (row : list value)
    (key : string) :
  get_loc key labels = None -> getitem labels row key = Err (KeyError key).
Proof. unfold getitem. now intros ->. Qed.

Lemma getitem_present (labels : list string) (row : list value)
    (key : string) :
  get_loc key labels <> None -> exists x, getitem labels row key = Ok x.
Proof.
  unfold getitem. destruct (get_loc key labels); [eauto|contradiction].
Qed.

Lemma get_loc_none_occurrences (key : string) (labels : list string) :
  get_loc key labels = None -> occurrences key labels = 0%nat.
Proof.
  induction labels as [|l ls IH]; cbn; [reflexivity|].
  destruct (String.eqb l key); [discriminate|].
  destruct (get_loc key ls); [discriminate|]. intros _. now apply IH.
Qed.

Lemma occurrences_zero_absent (key : string) (labels : list string) :
  occurrences key labels = 0%nat -> get_loc key labels = None.
Proof.
  induction labels as [|l ls IH]; cbn; [reflexivity|].
  destruct (String.eqb l key); [discriminate|].
  intros H. now rewrite (IH H).
Qed.

Lemma occurs_once_present (key : string) (labels : list string) :
  occurrences key labels = 1%nat -> get_loc key labels <> None.
Proof. intros H E. apply get_loc_none_occurrences in E. lia. Qed.

Lemma occurs_once_not_repeated (key : string) (labels : list string) :
  occurrences key labels = 1%nat -> repeated key labels = false.
Proof. unfold repeated. now intros ->. Qed.

(** Among distinct labels none is repeated. *)
Lemma distinct_not_repeated (labels : list string) (key : string) :
  distinct labels = true -> repeated key labels = false.
Proof.
  unfold repeated. intros D. apply Nat.ltb_ge.
  induction labels as [|l ls IH]; cbn in *; [lia|].
  destruct (get_loc l ls) eqn:G; [discriminate D|].
  specialize (IH D). destruct (String.eqb_spec l key) as [->|N]; [|lia].
  apply get_loc_none_occurrences in G. lia.
Qed.

(** A label that is there once is looked up as its cell. *)
Lemma getitem_once (labels : list string) (row : list value)
    (key : string) :
  get_loc key labels <> None -> repeated key labels = false ->
  getitem labels row key = Ok (Scalar (at_label labels row key))
  /\ forall default,
       get labels row key default = Scalar (at_label labels row key).
Proof.
  unfold getitem, get, lookup, at_label. intros P ->.
  now destruct (get_loc key labels).
Qed.

Ltac passed key labels :=
  destruct (get_loc key labels) eqn:?; cbn [bind_result]; [|reflexivity];
  destruct (repeated key labels) eqn:?.

Ltac coerced key labels :=
  destruct (get_loc key labels) eqn:?; cbn [bind_result]; [|reflexivity];
  destruct (repeated key labels) eqn:?; cbn [bind_result or_0 andb];
  [reflexivity|].

(** One row of the loop: its tuple is built and adapted unless one of the
    lookups raises or a sub-Series is left in the tuple. *)
Lemma insert_params_spec (labels : list string) (row : list value) :
  insert_params labels row =
  match tuple_error labels with
  | Some e => Err e
  | None => Ok (params_of labels row)
  end.
Proof.
  unfold insert_params, insert_tuple, params_of, getitem_or_0, getitem,
    lookup, at_label, tuple_error, indexed_labels, passed_labels.
  cbn [lookup_error existsb].
  change (existsb (String.eqb START) integer_labels) with false.
  change (existsb (String.eqb END_) integer_labels) with false.
  change (existsb (String.eqb GENDER) integer_labels) with false.
  change (existsb (String.eqb EDUCATION) integer_labels) with false.
  change (existsb (String.eqb PROVINCE) integer_labels) with false.
  change (existsb (String.eqb AGE_RANGE) integer_labels) with false.
  change (existsb (String.eqb EMPLOYMENT) integer_labels) with false.
  change (existsb (String.eqb MONTHS) integer_labels) with true.
  change (existsb (String.eqb INCOME) integer_labels) with true.
  change (existsb (String.eqb APPLICATIONS) integer_labels) with true.
  change (existsb (String.eqb JOB_CHANGES) integer_labels) with true.
  cbn [andb].
  passed START labels; passed END_ labels; passed GENDER labels;
    passed EDUCATION labels; passed PROVINCE labels;
    passed AGE_RANGE labels; passed EMPLOYMENT labels;
    coerced MONTHS labels; coerced INCOME labels;
    coerced APPLICATIONS labels; coerced JOB_CHANGES labels;
    reflexivity.
Qed.

Lemma lookup_error_key (labels keys : list string) (key : string) :
  lookup_error labels keys = Some (KeyError key) ->
  In key keys /\ get_loc key labels = None.
Proof.
  induction keys as [|k rest IH]; cbn; [discriminate|].
  destruct (get_loc k labels) eqn:G.
  - destruct (_ && _); [discriminate|]. intros H.
    destruct (IH H). now split; [right|].
  - intros [= <-]. now split; [left|].
Qed.

Lemma lookup_error_none (labels keys : list string) (key : string) :
  lookup_error labels keys = None -> In key keys ->
  get_loc key labels <> None.
Proof.
  induction keys as [|k rest IH]; cbn; [tauto|].
  destruct (get_loc k labels) eqn:G; [|discriminate].
  destruct (_ && _); [discriminate|].
  intros H [<-|Hin]; [congruence|now apply IH].
Qed.

Lemma lookup_error_kinds (labels keys : list string) (e : exn) :
  lookup_error labels keys = Some e ->
  e = ValueError \/ exists key, e = KeyError key.
Proof.
  induction keys as [|k rest IH]; cbn; [discriminate|].
  destruct (get_loc k labels).
  - destruct (_ && _); [intros [= <-]; now left|exact IH].
  - intros [= <-]. right. now exists k.
Qed.

(** Where no label is repeated the only exception of a row is the
    KeyError on the first missing label. *)
Lemma lookup_error_first_missing (labels keys : list string) :
  (forall key, repeated key labels = false) ->
  lookup_error labels keys
  = option_map KeyError
      (find (fun key => match get_loc key labels with
                        | None => true
                        | Some _ => false
                        end) keys).
Proof.
  intros R. induction keys as [|k rest IH]; [reflexivity|].
  cbn [lookup_error find].
  destruct (get_loc k labels); [|reflexivity].
  now rewrite R, andb_false_r.
Qed.

Lemma tuple_error_distinct (labels : list string) :
  distinct labels = true ->
  tuple_error labels = option_map KeyError (first_missing labels).
Proof.
  intros D.
  assert (R : forall key, repeated key labels = false)
    by (intros key; now apply distinct_not_repeated).
  unfold tuple_error, first_missing.
  rewrite (lookup_error_first_missing labels indexed_labels R).
  destruct (find _ indexed_labels); [reflexivity|].
  unfold passed_labels. cbn [option_map existsb]. now rewrite !R.
Qed.

(** The exceptions of a row: a KeyError on a missing label, a ValueError
    or a ProgrammingError on a repeated one. *)
Lemma tuple_error_key (labels : list string) (key : string) :
  tuple_error labels = Some (KeyError key) ->
  In key indexed_labels /\ get_loc key labels = None.
Proof.
  unfold tuple_error.
  destruct (lookup_error labels indexed_labels) as [e|] eqn:L.
  - intros [= ->]. now apply lookup_error_key in L.
  - now destruct (existsb _ _).
Qed.

Lemma tuple_error_kinds (labels : list string) (e : exn) :
  tuple_error labels = Some e ->
  e = ValueError \/ e = ProgrammingError \/ exists key, e = KeyError key.
Proof.
  unfold tuple_error.
  destruct (lookup_error labels indexed_labels) as [e'|] eqn:L.
  - intros [= <-]. apply lookup_error_kinds in L. tauto.
  - destruct (existsb _ _); [|discriminate]. intros [= <-]. tauto.
Qed.

Lemma tuple_error_none (labels : list string) (key : string) :
  tuple_error labels = None -> In key indexed_labels ->
  get_loc key labels <> None.
Proof.
  unfold tuple_error.
  destruct (lookup_error labels indexed_labels) as [e|] eqn:L;
    [discriminate|].
  intros _. now apply lookup_error_none.
Qed.

Lemma first_missing_is_missing (labels : list string) (key : string) :
  first_missing labels = Some key ->
  In key indexed_labels /\ get_loc key labels = None.
Proof.
  unfold first_missing. intros H. apply find_some in H as [Hin Hk].
  split; [exact Hin|]. now destruct (get_loc key labels).
Qed.

Lemma first_missing_none (labels : list string) (key : string) :
  first_missing labels = None -> In key indexed_labels ->
  get_loc key labels <> None.
Proof.
  unfold first_missing. intros H Hin E.
  apply (find_none _ _ H) in Hin. now rewrite E in Hin.
Qed.

Lemma missing_first_missing (labels : list string) (key : string) :
  In key indexed_labels -> get_loc key labels = None ->
  exists key', first_missing labels = Some key'.
Proof.
  intros Hin E. destruct (first_missing labels) as [k|] eqn:F; [eauto|].
  now destruct (first_missing_none labels key F Hin).
Qed.

Lemma all_present_first_missing (labels : list string) :
  (forall key, In key indexed_labels -> get_loc key labels <> None) ->
  first_missing labels = None.
Proof.
  intros H. destruct (first_missing labels) as [k|] eqn:F; [|reflexivity].
  apply first_missing_is_missing in F as [Hin E]. now destruct (H k Hin).
Qed.

Lemma rural_absent_false (labels : list string) (row : list value) :
  get_loc RURAL labels = None -> rural_to_urban labels row = false.
Proof. unfold rural_to_urban, get. now intros ->. Qed.

Lemma params_of_length (labels : list string) (row : list value) :
  List.length (params_of labels row) = List.length insert_columns.
Proof. reflexivity. Qed.

Lemma params_of_rural (labels : list string) (row : list value) :
  nth_error (params_of labels row) 6 = Some (VBool (rural_to_urban labels row)).
Proof. reflexivity. Qed.

(** ** The boolean field *)

Lemma lstrip_split (s : string) :
  exists l, s = (l ++ Str.lstrip s)%string /\ Str.all Str.isspace l = true.
Proof.
  induction s as [|c s [l [E Hl]]]; simpl.
  - now exists "".
  - destruct (Str.isspace c) eqn:Hc.
    + exists (String c l). simpl. now rewrite Hc, Hl, <- E.
    + now exists "".
Qed.

Lemma rstrip_split (s : string) :
  exists r, s = (Str.rstrip s ++ r)%string /\ Str.all Str.isspace r = true.
Proof.
  induction s as [|c s [r [E Hr]]]; simpl.
  - now exists "".
  - destruct (Str.rstrip s) as [|d t].
    + simpl in E. subst r. destruct (Str.isspace c) eqn:Hc.
      * exists (String c s). simpl. now rewrite Hc, Hr.
      * now exists s.
    + exists r. simpl in *. now rewrite <- E.
Qed.

Lemma lstrip_spaces_then (l s : string) (c : ascii) :
  Str.all Str.isspace l = true -> Str.isspace c = false ->
  Str.lstrip (l ++ String c s)%string = String c s.
Proof.
  intros Hl Hc. induction l as [|d l IH]; simpl.
  - now rewrite Hc.
  - simpl in Hl. apply andb_prop in Hl as [Hd Hl]. rewrite Hd. now apply IH.
Qed.

Lemma rstrip_spaces (r : string) :
  Str.all Str.isspace r = true -> Str.rstrip r = "".
Proof.
  induction r as [|c r IH]; simpl; [reflexivity|].
  intros [Hc Hr]%andb_prop. now rewrite (IH Hr), Hc.
Qed.

Lemma lower_char_yes_not_space (c : ascii) :
  Str.lower_char c = "y"%char \/ Str.lower_char c = "e"%char
  \/ Str.lower_char c = "s"%char ->
  Str.isspace c = false.
Proof.
  each_char c; intros [H|[H|H]]; discriminate H.
Qed.

(** The texts whose trimmed, lower-cased form is [yes], in terms of the
    script's own [strip] and [lower]. *)
Lemma yes_text (s : string) :
  Str.lower (Str.strip s) = "yes" <->
  exists l y e z r,
    s = (l ++ String y (String e (String z r)))%string
    /\ Str.all Str.isspace l = true /\ Str.all Str.isspace r = true
    /\ Str.lower_char y = "y"%char /\ Str.lower_char e = "e"%char
    /\ Str.lower_char z = "s"%char.
Proof.
  split.
  - intros H.
    destruct (lstrip_split s) as [l [El Hl]].
    destruct (rstrip_split (Str.lstrip s)) as [r [Er Hr]].
    fold (Str.strip s) in Er.
    destruct (Str.strip s) as [|y [|e [|z [|x t]]]]; try discriminate H.
    injection H as Hy He Hz.
    exists l, y, e, z, r. repeat split; try assumption.
    rewrite El at 1. now rewrite Er.
  - intros (l & y & e & z & r & -> & Hl & Hr & Hy & He & Hz).
    unfold Str.strip. rewrite (lstrip_spaces_then l _ y Hl).
    2:{ apply lower_char_yes_not_space. now left. }
    assert (Sy : Str.isspace y = false)
      by (apply lower_char_yes_not_space; now left).
    assert (Se : Str.isspace e = false)
      by (apply lower_char_yes_not_space; right; now left).
    assert (Sz : Str.isspace z = false)
      by (apply lower_char_yes_not_space; right; now right).
    cbn [Str.rstrip]. rewrite (rstrip_spaces r Hr), Sz.
    cbn [Str.lower]. now rewrite Hy, He, Hz.
Qed.

Lemma isspace_is_whitespace (c : ascii) : Str.isspace c = is_whitespace c.
Proof. each_char c. Qed.

Lemma lower_char_y (c : ascii) :
  Str.lower_char c = "y"%char <-> (c = "y" \/ c = "Y")%char.
Proof.
  split; [each_char c; intros H; try discriminate H; tauto|].
  now intros [-> | ->].
Qed.

Lemma lower_char_e (c : ascii) :
  Str.lower_char c = "e"%char <-> (c = "e" \/ c = "E")%char.
Proof.
  split; [each_char c; intros H; try discriminate H; tauto|].
  now intros [-> | ->].
Qed.

Lemma lower_char_s (c : ascii) :
  Str.lower_char c = "s"%char <-> (c = "s" \/ c = "S")%char.
Proof.
  split; [each_char c; intros H; try discriminate H; tauto|].
  now intros [-> | ->].
Qed.

Lemma all_ext (p q : ascii -> bool) (s : string) :
  (forall c, p c = q c) -> Str.all p s = Str.all q s.
Proof.
  intros E. induction s as [|c s IH]; cbn; [reflexivity|].
  now rewrite E, IH.
Qed.

(** The script's test on a text is the spelled-out one. *)
Lemma yes_text_reads_yes (s : string) :
  Str.lower (Str.strip s) = "yes" <-> reads_yes s.
Proof.
  rewrite yes_text. unfold reads_yes.
  split; intros (l & y & e & z & r & E & Hl & Hr & Hy & He & Hz);
    exists l, y, e, z, r;
    rewrite (all_ext _ _ l isspace_is_whitespace) in *;
    rewrite (all_ext _ _ r isspace_is_whitespace) in *;
    rewrite lower_char_y, lower_char_e, lower_char_s in *; tauto.
Qed.

Lemma is_yes_scalar (v : value) :
  is_yes v = true <-> reads_yes (py_str v).
Proof.
  cbn [is_yes]. rewrite String.eqb_eq. apply yes_text_reads_yes.
Qed.

(** A text made of digits and a sign does not read [yes]. *)
Lemma reads_yes_letter (s : string) :
  reads_yes s -> Str.all digit_or_minus s = false.
Proof.
  intros (l & y & e & z & r & -> & _ & _ & Hy & _).
  rewrite all_append. cbn [Str.all].
  assert (D : digit_or_minus y = false) by (now destruct Hy as [-> | ->]).
  rewrite D. apply andb_false_r.
Qed.

Lemma string_of_uint_digits (d : Decimal.uint) :
  Str.all digit_or_minus (NilEmpty.string_of_uint d) = true.
Proof. induction d; cbn [NilEmpty.string_of_uint Str.all]; auto. Qed.

Lemma str_of_Z_digits (n : Z) : Str.all digit_or_minus (str_of_Z n) = true.
Proof.
  unfold str_of_Z, NilZero.string_of_int, NilZero.string_of_uint.
  destruct (Z.to_int n) as [d|d]; destruct d;
    try reflexivity; cbn [Str.all];
    try (rewrite string_of_uint_digits; reflexivity).
Qed.

Lemma is_yes_int (n : Z) : is_yes (VInt n) = false.
Proof.
  destruct (is_yes (VInt n)) eqn:H; [|reflexivity].
  apply is_yes_scalar, reads_yes_letter in H. cbn [py_str] in H.
  now rewrite str_of_Z_digits in H.
Qed.

Lemma rural_to_urban_once (labels : list string) (row : list value)
    (i : nat) :
  get_loc RURAL labels = Some i -> repeated RURAL labels = false ->
  rural_to_urban labels row = is_yes (cell i row).
Proof.
  unfold rural_to_urban, get, lookup. now intros -> ->.
Qed.

Lemma rural_to_urban_repeated (labels : list string) (row : list value) :
  repeated RURAL labels = true -> rural_to_urban labels row = false.
Proof.
  unfold rural_to_urban, get, lookup. intros ->.
  now destruct (get_loc RURAL labels).
Qed.

Lemma repeated_iff (key : string) (labels : list string) :
  repeated key labels = false <-> (occurrences key labels <= 1)%nat.
Proof. unfold repeated. apply Nat.ltb_ge. Qed.

(** C3: the parameter stored in [rural_to_urban] is true exactly when the
    rural-migration label is there once and the text of the cell under it
    reads [yes]: the letters y, e, s in either case with whitespace and
    nothing else around them.  Every other input gives false: a missing
    value (None, NaN, an empty cell, an absent column), a number, a
    boolean, and the sub-Series that a repeated label gives.  [YES ] with
    its trailing space gives true. *)
Theorem rural_to_urban_true_iff_yes (labels : list string)
    (row : list value) :
  (rural_to_urban labels row = true <->
   occurrences RURAL labels = 1%nat
   /\ exists i, get_loc RURAL labels = Some i
                /\ reads_yes (py_str (cell i row)))
  /\ (forall v : value, is_yes v = true <-> reads_yes (py_str v))
  /\ (forall s, is_yes (VStr s) = true <-> reads_yes s)
  /\ is_yes VNone = false /\ is_yes VNaN = false /\ is_yes (VStr "") = false
  /\ (forall n, is_yes (VInt n) = false)
  /\ (forall b, is_yes (VBool b) = false)
  /\ (forall cells, is_yes (Series cells) = false)
  /\ (get_loc RURAL labels = None -> rural_to_urban labels row = false)
  /\ is_yes (VStr "YES ") = true /\ is_yes (VStr " yes") = true
  /\ is_yes (VStr "y es") = false.
Proof.
  split.
  { split.
    - intros H.
      destruct (repeated RURAL labels) eqn:R;
        [now rewrite rural_to_urban_repeated in H|].
      destruct (get_loc RURAL labels) as [i|] eqn:G;
        [|now rewrite rural_absent_false in H].
      rewrite (rural_to_urban_once labels row i G R) in H.
      apply is_yes_scalar in H. apply repeated_iff in R.
      split; [|now exists i].
      destruct (occurrences RURAL labels) as [|[|n]] eqn:O; [|reflexivity|lia].
      apply occurrences_zero_absent in O. congruence.
    - intros [O (i & G & Y)].
      rewrite (rural_to_urban_once labels row i G)
        by (now apply occurs_once_not_repeated).
      now apply is_yes_scalar. }
  split; [exact is_yes_scalar|].
  split; [intros s; apply (is_yes_scalar (VStr s))|].
  do 3 (split; [reflexivity|]).
  split; [exact is_yes_int|].
  split; [now intros []|].
  split; [reflexivity|].
  split; [apply rural_absent_false|].
  repeat split.
Qed.

(** The theorem on the sample answer, on an export without the
    rural-migration column, and on one that has it twice. *)
Lemma rural_to_urban_true_iff_yes_witness :
  rural_to_urban (canonicalize_columns Sample.raw_header) Sample.answer
  = true
  /\ rural_to_urban
       (canonicalize_columns (Sample.without Sample.rural_header
                                Sample.raw_header))
       Sample.answer_without_rural
     = false
  /\ (rural_to_urban (canonicalize_columns Sample.rural_twice_header)
        Sample.answer_rural_twice
      = true
      <-> occurrences RURAL (canonicalize_columns Sample.rural_twice_header)
          = 1%nat
          /\ exists i,
              get_loc RURAL (canonicalize_columns Sample.rural_twice_header)
              = Some i
              /\ reads_yes (py_str (cell i Sample.answer_rural_twice))).
Proof.
  split; [|split].
  - apply (proj1 (rural_to_urban_true_iff_yes
                    (canonicalize_columns Sample.raw_header) Sample.answer)).
    split; [reflexivity|]. exists 6%nat. split; [reflexivity|].
    exists "", "Y"%char, "E"%char, "S"%char, " ".
    repeat split; tauto.
  - apply (proj1 (proj2 (proj2 (proj2 (proj2 (proj2 (proj2 (proj2 (proj2
             (proj2 (rural_to_urban_true_iff_yes
                (canonicalize_columns
                   (Sample.without Sample.rural_header Sample.raw_header))
                Sample.answer_without_rural))))))))))).
    reflexivity.
  - exact (proj1 (rural_to_urban_true_iff_yes
                    (canonicalize_columns Sample.rural_twice_header)
                    Sample.answer_rural_twice)).
Defined.

(** ** The integer fields *)

Lemma falsy_values (v : value) : truthy v = false <-> In v zero_like.
Proof.
  unfold zero_like. split.
  - destruct v as [| | |b|n|r|s|iso]; cbn [truthy]; intros H;
      try discriminate H.
    + now left.
    + subst b. right. now left.
    + apply negb_false_iff, Z.eqb_eq in H. subst n. do 2 right. now left.
    + apply negb_false_iff, orb_true_iff in H.
      destruct H as [H|H]; apply String.eqb_eq in H; subst r.
      * do 3 right. now left.
      * do 4 right. now left.
    + apply negb_false_iff, String.eqb_eq in H. subst s.
      do 5 right. now left.
  - cbn [In]. intros [<-|[<-|[<-|[<-|[<-|[<-|[]]]]]]]; reflexivity.
Qed.

Lemma zero_if_falsy_cases (v : value) :
  (In v zero_like /\ zero_if_falsy v = VInt 0)
  \/ (~ In v zero_like /\ zero_if_falsy v = v).
Proof.
  unfold zero_if_falsy. destruct (truthy v) eqn:T.
  - right. split; [|reflexivity]. intros H%falsy_values. congruence.
  - left. split; [|reflexivity]. now apply falsy_values.
Qed.

Lemma or_0_int (n : Z) : or_0 (VInt n) = Ok (Scalar (VInt n)).
Proof.
  cbn [or_0]. unfold zero_if_falsy. cbn [truthy].
  destruct (Z.eqb_spec n 0); [now subst|reflexivity].
Qed.

Lemma present_once (key : string) (labels : list string) :
  get_loc key labels <> None -> repeated key labels = false ->
  occurrences key labels = 1%nat.
Proof.
  intros P R%repeated_iff.
  destruct (occurrences key labels) as [|[|n]] eqn:O; [|reflexivity|lia].
  now apply occurrences_zero_absent in O.
Qed.

(** A row whose tuple is built has each label of an integer field once. *)
Lemma lookup_error_none_once (labels keys : list string) (key : string) :
  lookup_error labels keys = None -> In key keys ->
  existsb (String.eqb key) integer_labels = true ->
  repeated key labels = false.
Proof.
  induction keys as [|k rest IH]; cbn [lookup_error In]; [tauto|].
  destruct (get_loc k labels); [|discriminate].
  destruct (existsb (String.eqb k) integer_labels && repeated k labels)
    eqn:E; [discriminate|].
  intros H [<-|Hin] C; [|now apply IH].
  rewrite C in E. exact E.
Qed.

Lemma tuple_error_none_once (labels : list string) (key : string) :
  tuple_error labels = None -> In key integer_labels ->
  occurrences key labels = 1%nat.
Proof.
  unfold tuple_error.
  destruct (lookup_error labels indexed_labels) eqn:L; [discriminate|].
  intros _ Hin.
  assert (Hin' : In key indexed_labels)
    by (cbn in Hin |- *; intuition).
  assert (C : existsb (String.eqb key) integer_labels = true).
  { apply existsb_exists. exists key. split; [exact Hin|].
    apply String.eqb_refl. }
  apply present_once.
  - now apply (lookup_error_none labels indexed_labels).
  - now apply (lookup_error_none_once labels indexed_labels).
Qed.

(** The cell of a row after the NaN-to-None pass. *)
Lemma cell_where_row (rs : list (list value)) (row : list value)
    (k j : nat) :
  cell j (where_row rs k row)
  = where_cell (map (cell (k + j)) rs) (cell j row).
Proof.
  unfold cell. revert k j. induction row as [|v row IH]; intros k j.
  - cbn [where_row]. destruct j; cbn [nth]; unfold where_cell;
      now destruct (numeric_column _).
  - cbn [where_row]. destruct j as [|j]; cbn [nth].
    + now rewrite Nat.add_0_r.
    + rewrite IH. now rewrite Nat.add_succ_r.
Qed.

(** C6, as the specification states it, at a months cell holding the text
    [12]: the parameter is that text, not the integer 12 nor any integer. *)
Lemma text_cell_is_passed_unparsed :
  getitem_or_0 (canonicalize_columns Sample.raw_header)
    Sample.answer_text_months MONTHS
  = Ok (Scalar (VStr "12"))
  /\ ~ (exists n : Z, or_0 (VStr "12") = Ok (Scalar (VInt n))).
Proof.
  split; [reflexivity|]. intros [n H]. discriminate H.
Qed.

(** C6 (amended): in every tuple the loop builds, each of the four integer
    fields comes from a label that is there once, and is the integer zero
    when the value looked up is None (what a missing cell of a column that
    holds text is by then), empty or zero-like (False, 0, 0.0, -0.0), and
    otherwise the value looked up, unchanged: a non-zero integer stays
    that integer and nothing is parsed.  Nothing is said here of a cell
    that is still NaN when it is looked up. *)
Theorem integer_fields_default_to_zero (labels : list string)
    (row params : list value) :
  insert_params labels row = Ok params ->
  Forall2 (fun key p =>
             occurrences key labels = 1%nat
             /\ exists v : value,
                 getitem labels row key = Ok (Scalar v)
                 /\ (v = VNaN
                     \/ (In v zero_like /\ p = VInt 0)
                     \/ (~ In v zero_like /\ p = v)))
          integer_labels (skipn 8 params)
  /\ (forall n, or_0 (VInt n) = Ok (Scalar (VInt n)))
  /\ (forall (rs : list (list value)) (line : list value) (j : nat),
         numeric_column (map (cell j) rs) = false ->
         cell j line = VNaN ->
         or_0 (cell j (where_row rs 0 line)) = Ok (Scalar (VInt 0))).
Proof.
  intros H. rewrite insert_params_spec in H.
  destruct (tuple_error labels) eqn:F; [discriminate H|].
  injection H as <-. split; [|split; [exact or_0_int|]].
  - assert (O : forall key, In key integer_labels ->
                            occurrences key labels = 1%nat)
      by (intros key; now apply tuple_error_none_once).
    assert (G : forall key,
               In key integer_labels ->
               occurrences key labels = 1%nat
               /\ exists v : value,
                   getitem labels row key = Ok (Scalar v)
                   /\ (v = VNaN
                       \/ (In v zero_like
                           /\ zero_if_falsy (at_label labels row key)
                              = VInt 0)
                       \/ (~ In v zero_like
                           /\ zero_if_falsy (at_label labels row key) = v))).
    { intros key Hin. split; [now apply O|].
      exists (at_label labels row key). split.
      - apply getitem_once.
        + now apply occurs_once_present, O.
        + now apply occurs_once_not_repeated, O.
      - right. apply zero_if_falsy_cases. }
    cbn [params_of skipn]. unfold integer_labels.
    repeat constructor; apply G; cbn; tauto.
  - intros rs line j N E. rewrite cell_where_row. cbn [Nat.add].
    unfold where_cell. now rewrite N, E.
Qed.

(** The theorem on the complete sample answer: 4 months, an income of
    250000, 7 applications and 0 job changes. *)
Lemma integer_fields_default_to_zero_witness :
  Forall2 (fun key p =>
             occurrences key (canonicalize_columns Sample.raw_header)
             = 1%nat
             /\ exists v : value,
                 getitem (canonicalize_columns Sample.raw_header)
                   Sample.answer_bad_start key = Ok (Scalar v)
                 /\ (v = VNaN
                     \/ (In v zero_like /\ p = VInt 0)
                     \/ (~ In v zero_like /\ p = v)))
          integer_labels [VInt 4; VInt 250000; VInt 7; VInt 0].
Proof.
  refine (proj1 (integer_fields_default_to_zero
                   (canonicalize_columns Sample.raw_header)
                   Sample.answer_bad_start
                   [ VStr "not a date"; VStr "2024-03-01T09:32:10";
                     VStr "Female"; VStr "Secondary"; VStr "Northern";
                     VStr "18-25"; VBool true; VStr "Employed"; VInt 4;
                     VInt 250000; VInt 7; VInt 0 ] _)).
  vm_compute. reflexivity.
Defined.

(** ** Calls on the connection *)

Lemma firstn_app_le {A} (m : nat) (a b : list A) :
  (m <= List.length a)%nat -> firstn m (a ++ b) = firstn m a.
Proof.
  intros H. rewrite firstn_app.
  replace (m - List.length a)%nat with 0%nat by lia.
  cbn [firstn]. apply app_nil_r.
Qed.

Lemma calls_cons (w : World) (e : event) (rest : list event)
    (tr : list event) :
  calls w (e :: rest) tr =
  if db_accepts w tr e then calls w rest (tr ++ [e])
  else (Err (DatabaseError e), tr ++ [e]).
Proof.
  cbn [calls]. unfold bind, call. now destruct (db_accepts w tr e).
Qed.

(** A list of calls either goes through, or stops at the first call the
    server refuses. *)
Lemma calls_cases (w : World) (evs : list event) :
  forall tr,
    calls w evs tr = (Ok tt, tr ++ evs)
    \/ exists n ev,
        nth_error evs n = Some ev
        /\ db_accepts w (tr ++ firstn n evs) ev = false
        /\ calls w evs tr = (Err (DatabaseError ev), tr ++ firstn (S n) evs).
Proof.
  induction evs as [|e rest IH]; intros tr.
  - left. cbn. now rewrite app_nil_r.
  - rewrite calls_cons. destruct (db_accepts w tr e) eqn:A.
    + destruct (IH (tr ++ [e])) as [H|(n & ev & Hn & Hr & H)].
      * left. rewrite H. now rewrite <- app_assoc.
      * right. exists (S n), ev. split; [exact Hn|].
        rewrite H. cbn [firstn]. rewrite <- !app_assoc in *.
        now split.
    + right. exists 0%nat, e. cbn [firstn nth_error].
      rewrite app_nil_r. now split.
Qed.

Lemma calls_app (w : World) (a b : list event) :
  forall tr, calls w (a ++ b) tr = bind (calls w a) (fun _ => calls w b) tr.
Proof.
  induction a as [|e a IH]; intros tr; [reflexivity|].
  cbn [app]. rewrite calls_cons. unfold bind. rewrite calls_cons.
  destruct (db_accepts w tr e); [|reflexivity].
  rewrite IH. reflexivity.
Qed.

(** With every label in place the loop is one INSERT per row. *)
Lemma insert_rows_calls (w : World) (labels : list string)
    (rs : list (list value)) :
  tuple_error labels = None ->
  forall tr, insert_rows w labels rs tr = calls w (inserts labels rs) tr.
Proof.
  intros F. induction rs as [|row rest IH]; intros tr; [reflexivity|].
  cbn [insert_rows inserts map]. rewrite calls_cons.
  rewrite insert_params_spec, F. unfold bind, lift, call.
  destruct (db_accepts w tr _); [|reflexivity].
  apply IH.
Qed.

(** With a label missing or repeated the first row already raises, and
    nothing is called. *)
Lemma insert_rows_raises (w : World) (labels : list string)
    (row : list value) (rest : list (list value)) (e : exn) :
  tuple_error labels = Some e ->
  forall tr, insert_rows w labels (row :: rest) tr = (Err e, tr).
Proof.
  intros F tr. cbn [insert_rows]. rewrite insert_params_spec, F.
  reflexivity.
Qed.

Lemma load_unfold (w : World) (df : DataFrame) (tr : list event) :
  load w df tr =
  bind (calls w prologue)
       (fun _ => bind (insert_rows w (columns df) (rows df))
                      (fun _ => calls w epilogue)) tr.
Proof.
  unfold load, connect, prologue, epilogue. cbn [calls].
  unfold bind, call, ret.
  repeat (match goal with
          | |- context [db_accepts ?x ?t ?e] =>
              destruct (db_accepts x t e); try reflexivity
          end).
  destruct (insert_rows w (columns df) (rows df) _) as [[[]|e] tr'];
    [|reflexivity].
  repeat (match goal with
          | |- context [db_accepts ?x ?t ?e] =>
              destruct (db_accepts x t e); try reflexivity
          end).
Qed.

Lemma load_no_raise (w : World) (df : DataFrame) :
  loop_raises df = None -> load w df [] = calls w (plan df) [].
Proof.
  intros L. rewrite load_unfold. unfold plan.
  rewrite calls_app. unfold bind at 1 3.
  destruct (calls w prologue []) as [[[]|e] tr]; [|reflexivity].
  rewrite calls_app. unfold bind.
  unfold loop_raises in L.
  destruct (rows df) as [|row rest] eqn:R; [reflexivity|].
  now rewrite (insert_rows_calls w _ (row :: rest) L).
Qed.

(** Every upload has one of the three shapes. *)
Lemma load_cases (w : World) (df : DataFrame) :
  load_shape w df (load w df []).
Proof.
  destruct (loop_raises df) as [key|] eqn:L.
  - rewrite load_unfold. unfold bind at 1.
    destruct (calls_cases w prologue []) as [H|(n & ev & Hn & Hr & H)];
      rewrite H; cbn [app] in *.
    + unfold loop_raises in L. destruct (rows df) as [|row rest] eqn:R;
        [discriminate L|].
      unfold bind. rewrite (insert_rows_raises w _ row rest key L).
      apply raised. unfold loop_raises. now rewrite R.
    + assert (Hlt : (n < List.length prologue)%nat)
        by (apply nth_error_Some; congruence).
      rewrite <- (firstn_app_le (S n) prologue
                    (inserts (columns df) (rows df) ++ epilogue)) by lia.
      apply refused.
      * unfold plan. now rewrite nth_error_app1.
      * now right.
      * unfold plan. rewrite firstn_app_le by lia. exact Hr.
  - rewrite (load_no_raise w df L).
    destruct (calls_cases w (plan df) []) as [H|(n & ev & Hn & Hr & H)];
      rewrite H; cbn [app] in *.
    + now apply completed.
    + apply refused; [exact Hn|now left|exact Hr].
Qed.

(** ** Steps 1 and 2 *)

Lemma assign_column_length (i : nat) (w : World) (rs : list (list value)) :
  List.length
    (assign_column i (to_datetime (parse_datetime w) (map (cell i) rs)) rs)
  = List.length rs.
Proof.
  unfold assign_column, to_datetime.
  rewrite length_map, length_combine, !length_map. apply Nat.min_id.
Qed.

Lemma convert_timestamp_cases (w : World) (key : string) (df : DataFrame) :
  (get_loc key (columns df) = None
   /\ convert_timestamp w key df = Err (KeyError key))
  \/ (repeated key (columns df) = true
      /\ convert_timestamp w key df = Err ValueError)
  \/ (occurrences key (columns df) = 1%nat
      /\ exists df', convert_timestamp w key df = Ok df'
                     /\ columns df' = columns df
                     /\ List.length (rows df') = List.length (rows df)).
Proof.
  unfold convert_timestamp.
  destruct (get_loc key (columns df)) as [i|] eqn:G; [|now left].
  right. destruct (repeated key (columns df)) eqn:R; [now left|].
  right. split; [apply present_once; congruence|].
  eexists. split; [reflexivity|].
  cbn [columns rows]. split; [reflexivity|apply assign_column_length].
Qed.

Lemma first_missing_start (labels : list string) :
  get_loc START labels = None -> first_missing labels = Some START.
Proof.
  intros E. unfold first_missing, indexed_labels. cbn [find]. now rewrite E.
Qed.

Lemma first_missing_end (labels : list string) :
  get_loc START labels <> None -> get_loc END_ labels = None ->
  first_missing labels = Some END_.
Proof.
  intros S E. unfold first_missing, indexed_labels. cbn [find].
  destruct (get_loc START labels); [|contradiction]. now rewrite E.
Qed.

Lemma where_row_length (rs : list (list value)) (j : nat)
    (row : list value) :
  List.length (where_row rs j row) = List.length row.
Proof.
  revert j. induction row as [|v row IH]; intros j; cbn; [reflexivity|].
  now rewrite IH.
Qed.

(** The normalizer raises a KeyError on a missing [start] or [end], a
    ValueError on a repeated one, and otherwise returns a frame with the
    canonical labels and as many rows. *)
Lemma normalize_cases (w : World) (df : DataFrame) :
  (exists key, first_missing (canonicalize_columns (columns df)) = Some key
               /\ (key = START \/ key = END_)
               /\ normalize w df = Err (KeyError key))
  \/ ((repeated START (canonicalize_columns (columns df)) = true
       \/ repeated END_ (canonicalize_columns (columns df)) = true)
      /\ normalize w df = Err ValueError)
  \/ (occurrences START (canonicalize_columns (columns df)) = 1%nat
      /\ occurrences END_ (canonicalize_columns (columns df)) = 1%nat
      /\ exists df', normalize w df = Ok df'
                     /\ columns df' = canonicalize_columns (columns df)
                     /\ List.length (rows df') = List.length (rows df)).
Proof.
  unfold normalize. change "start" with START. change "end" with END_.
  destruct (convert_timestamp_cases w START (nan_to_none (rename_columns df)))
    as [[E H]|[[R H]|[P (df1 & H & C1 & L1)]]]; rewrite H; cbn [bind_result].
  - left. exists START. cbn [nan_to_none rename_columns columns] in E.
    split; [now apply first_missing_start|]. split; [now left|reflexivity].
  - right. left. cbn [nan_to_none rename_columns columns] in R. tauto.
  - cbn [nan_to_none rename_columns columns rows] in P, C1, L1.
    rewrite length_map in L1.
    destruct (convert_timestamp_cases w END_ df1)
      as [[E H2]|[[R H2]|[P2 (df2 & H2 & C2 & L2)]]]; rewrite H2, C1 in *.
    + left. exists END_.
      split; [apply first_missing_end; [now apply occurs_once_present|easy]|].
      split; [now right|reflexivity].
    + right. left. tauto.
    + right. right. split; [exact P|]. split; [exact P2|].
      exists df2. split; [reflexivity|]. split; [exact C2|congruence].
Qed.

(** A repeated [start], or a repeated [end] next to a single [start],
    makes the normalizer raise the ValueError. *)
Lemma normalize_repeated (w : World) (df : DataFrame) :
  repeated START (canonicalize_columns (columns df)) = true
  \/ (occurrences START (canonicalize_columns (columns df)) = 1%nat
      /\ repeated END_ (canonicalize_columns (columns df)) = true) ->
  normalize w df = Err ValueError.
Proof.
  assert (P : forall key labels,
             repeated key labels = true -> get_loc key labels <> None).
  { intros key labels R G. apply get_loc_none_occurrences in G.
    unfold repeated in R. rewrite G in R. discriminate R. }
  unfold normalize, convert_timestamp.
  change "start" with START. change "end" with END_.
  cbn [nan_to_none rename_columns columns rows].
  intros [R|[O R]].
  - pose proof (P _ _ R) as G.
    destruct (get_loc START (canonicalize_columns (columns df)));
      [|contradiction].
    now rewrite R.
  - pose proof (occurs_once_present _ _ O) as G.
    destruct (get_loc START (canonicalize_columns (columns df)));
      [|contradiction].
    rewrite (occurs_once_not_repeated _ _ O). cbn [bind_result columns].
    pose proof (P _ _ R) as G2.
    destruct (get_loc END_ (canonicalize_columns (columns df)));
      [|contradiction].
    now rewrite R.
Qed.

Lemma extract_read (w : World) (df : DataFrame) :
  status_code (response w) = 200%Z ->
  read_csv w (text (response w)) = Some df ->
  extract w = normalize w df.
Proof.
  intros S R. unfold extract. rewrite (fetch_200 w S). cbn [bind_result].
  unfold parse_csv. now rewrite R.
Qed.

(** A frame leaves step 2 only through the normalizer. *)
Lemma extract_ok (w : World) (df' : DataFrame) :
  extract w = Ok df' ->
  status_code (response w) = 200%Z
  /\ exists df, read_csv w (text (response w)) = Some df
                /\ normalize w df = Ok df'.
Proof.
  unfold extract, fetch, parse_csv.
  destruct (Z.eqb_spec (status_code (response w)) 200) as [E|N];
    cbn [negb bind_result]; [|discriminate].
  destruct (read_csv w (text (response w))) as [df|]; [|discriminate].
  cbn [bind_result]. intros H. split; [exact E|]. now exists df.
Qed.

(** The exceptions of steps 1 and 2. *)
Lemma extract_err (w : World) (e : exn) :
  extract w = Err e ->
  e = fetch_failure (status_code (response w)) \/ e = ParserError
  \/ e = KeyError START \/ e = KeyError END_ \/ e = ValueError.
Proof.
  unfold extract, fetch, parse_csv.
  destruct (Z.eqb_spec (status_code (response w)) 200) as [E|N];
    cbn [negb bind_result]; [|intros [= <-]; now left].
  destruct (read_csv w (text (response w))) as [df|];
    cbn [bind_result]; [|intros [= <-]; right; now left].
  destruct (normalize_cases w df)
    as [(key & _ & [->| ->] & H)|[(_ & H)|(_ & _ & df' & H & _)]];
    rewrite H; intros [= <-]; tauto.
Qed.

(** Every run either stops before the upload, with no call made, or is
    the upload of the normalized frame. *)
Lemma run_cases (w : World) :
  (exists e, extract w = Err e /\ run w = (Err e, []))
  \/ (exists df, extract w = Ok df /\ run w = load w df []
                 /\ load_shape w df (run w)).
Proof.
  unfold run. destruct (extract w) as [df|e].
  - right. exists df. split; [reflexivity|]. split; [reflexivity|].
    apply load_cases.
  - left. now exists e.
Qed.

(** ** Reading the trace of an upload *)

Lemma In_firstn {A} (n : nat) (l : list A) (x : A) :
  In x (firstn n l) -> In x l.
Proof.
  revert l. induction n as [|n IH]; intros [|y l]; cbn; try tauto.
  intros [H|H]; [now left|right; now apply IH].
Qed.

Lemma filter_none {A} (p : A -> bool) (l : list A) :
  (forall x, In x l -> p x = false) -> filter p l = [].
Proof.
  induction l as [|y l IH]; cbn; [reflexivity|]. intros H.
  rewrite (H y) by now left. apply IH. intros x Hx. apply H. now right.
Qed.

Lemma existsb_none {A} (p : A -> bool) (l : list A) :
  (forall x, In x l -> p x = false) -> existsb p l = false.
Proof.
  induction l as [|y l IH]; cbn; [reflexivity|]. intros H.
  rewrite (H y) by now left. apply IH. intros x Hx. apply H. now right.
Qed.

Lemma In_inserts (labels : list string) (rs : list (list value))
    (ev : event) :
  In ev (inserts labels rs) ->
  exists row, In row rs /\ ev = Execute (Insert (params_of labels row)).
Proof.
  unfold inserts. intros (row & <- & H)%in_map_iff. now exists row.
Qed.

Lemma inserts_are_inserts (labels : list string) (rs : list (list value)) :
  filter is_insert (inserts labels rs) = inserts labels rs.
Proof.
  unfold inserts. induction rs as [|row rs IH]; cbn; [reflexivity|].
  now rewrite IH.
Qed.

(** The calls of a plan: the prologue, one INSERT per row, the epilogue. *)
Lemma In_plan (df : DataFrame) (ev : event) :
  In ev (plan df) ->
  In ev prologue
  \/ (exists row, In row (rows df)
                  /\ ev = Execute (Insert (params_of (columns df) row)))
  \/ In ev epilogue.
Proof.
  unfold plan. intros [H|[H|H]%in_app_or]%in_app_or.
  - now left.
  - right. left. now apply In_inserts.
  - right. now right.
Qed.

(** Whatever the shape, the trace of an upload is made of calls of its
    plan. *)
Lemma load_shape_In (w : World) (df : DataFrame)
    (r : result unit * list event) (ev : event) :
  load_shape w df r -> In ev (snd r) -> In ev (plan df).
Proof.
  intros [n ev' _ _ _|key _|_]; cbn [snd].
  - apply In_firstn.
  - unfold plan. intros H. apply in_or_app. now left.
  - tauto.
Qed.

(** An upload refused during the prologue has not gone past it. *)
Lemma firstn_plan_prologue (df : DataFrame) (n : nat) :
  (n < List.length prologue)%nat ->
  firstn (S n) (plan df) = firstn (S n) prologue.
Proof. intros H. unfold plan. apply firstn_app_le. lia. Qed.




(** ** Missing labels *)




(** ** The connection *)

Lemma plan_acquires_once (df : DataFrame) (n : nat) :
  filter is_acquire (firstn (S (S n)) (plan df)) = [Connect; Cursor].
Proof.
  unfold plan, prologue. cbn [app firstn filter is_acquire]. do 2 f_equal.
  apply filter_none. intros ev Hev%In_firstn.
  cbn [In] in Hev.
  destruct Hev as [<-|[<-|[<-|Hev]]]; try reflexivity.
  apply in_app_or in Hev as [(row & _ & ->)%In_inserts|Hev];
    [reflexivity|].
  cbn in Hev. now destruct Hev as [<-|[<-|[<-|[]]]].
Qed.

Lemma plan_acquires_once_all (df : DataFrame) :
  filter is_acquire (plan df) = [Connect; Cursor].
Proof.
  rewrite <- (firstn_all2 (n := S (S (List.length (plan df)))) (plan df))
    by lia.
  apply plan_acquires_once.
Qed.

(** A trace of an upload shows the connection and the cursor only as its
    first and second call. *)
Lemma load_shape_acquires (w : World) (df : DataFrame)
    (r : result unit * list event) :
  load_shape w df r ->
  snd r <> []
  /\ filter is_acquire (snd r) = firstn (List.length (snd r)) [Connect; Cursor].
Proof.
  intros [n ev _ _ _|key _|_]; cbn [snd].
  - destruct n as [|n]; [split; [discriminate|reflexivity]|].
    rewrite plan_acquires_once. split; [discriminate|].
    unfold plan, prologue. cbn [app firstn List.length].
    now rewrite ?firstn_nil.
  - split; [discriminate|reflexivity].
  - rewrite plan_acquires_once_all. split; [discriminate|].
    unfold plan, prologue. cbn [app firstn List.length].
    now rewrite ?firstn_nil.
Qed.

(** Both [close] calls sit at the very end of the plan. *)
Lemma plan_closes_last (df : DataFrame) :
  plan df
  = (prologue ++ inserts (columns df) (rows df) ++ [Commit])
    ++ [CursorClose; ConnClose].
Proof. unfold plan, epilogue. now rewrite <- !app_assoc. Qed.

Lemma body_has_no_close (df : DataFrame) (ev : event) :
  In ev (prologue ++ inserts (columns df) (rows df) ++ [Commit]) ->
  is_close ev = false.
Proof.
  intros [H|[(row & _ & ->)%In_inserts|H]%in_app_or]%in_app_or.
  - cbn in H. now destruct H as [<-|[<-|[<-|[<-|[<-|[]]]]]].
  - reflexivity.
  - cbn in H. now destruct H as [<-|[]].
Qed.

(** A run that stops at a call other than a [close] has issued none. *)
Lemma refused_before_close (df : DataFrame) (n : nat) (ev : event) :
  nth_error (plan df) n = Some ev -> is_close ev = false ->
  existsb is_close (firstn (S n) (plan df)) = false.
Proof.
  rewrite plan_closes_last. intros Hn Hev.
  set (body := prologue ++ inserts (columns df) (rows df) ++ [Commit]) in *.
  destruct (Nat.lt_ge_cases n (List.length body)) as [Hlt|Hge].
  - rewrite firstn_app_le by lia. apply existsb_none.
    intros x Hx%In_firstn. now apply (body_has_no_close df).
  - rewrite nth_error_app2 in Hn by exact Hge.
    apply nth_error_In in Hn. cbn in Hn.
    destruct Hn as [<-|[<-|[]]]; discriminate Hev.
Qed.

Lemma raised_before_close_call (ev : event) :
  raised_before_close (DatabaseError ev) = true -> is_close ev = false.
Proof. now destruct ev. Qed.

(** C8, as the specification states it, on the sample answer read from an
    export without the income column: the connection is opened, the loop
    raises, and the run ends without a [close]. *)
Lemma connection_left_open_on_key_error :
  outcome (Sample.world 200 Sample.no_income Sample.accept_all)
  = Err (KeyError INCOME)
  /\ In Connect (trace (Sample.world 200 Sample.no_income Sample.accept_all))
  /\ ~ In ConnClose
         (trace (Sample.world 200 Sample.no_income Sample.accept_all))
  /\ ~ In CursorClose
         (trace (Sample.world 200 Sample.no_income Sample.accept_all)).
Proof.
  split; [reflexivity|]. split; [now left|].
  split; cbn; intuition discriminate.
Qed.

(** C8 (amended): the connection and its cursor are acquired at most once
    per run, as the first and second database call, and the connection
    exactly once in every run that gets past fetch and normalization; a
    run that succeeds has made the calls of its plan, which end with
    commit, [cur.close()] and [conn.close()]; a run that fails anywhere
    before the [close] calls (a missing label in the insert loop, a
    refused connect, DDL statement, INSERT or commit) ends without having
    called [close] on the cursor or on the connection. *)
Theorem connection_closed_only_at_end_of_success (w : World) :
  filter is_acquire (trace w)
  = firstn (List.length (trace w)) [Connect; Cursor]
  /\ (forall df, extract w = Ok df -> hd_error (trace w) = Some Connect)
  /\ (outcome w = Ok tt ->
      exists df, extract w = Ok df
                 /\ trace w
                    = prologue ++ inserts (columns df) (rows df)
                      ++ [Commit; CursorClose; ConnClose])
  /\ (forall e, outcome w = Err e -> raised_before_close e = true ->
                existsb is_close (trace w) = false).
Proof.
  unfold outcome, trace.
  destruct (run_cases w) as [(e & E & R)|(df & E & _ & Sh)].
  - rewrite R. cbn [fst snd filter List.length existsb firstn].
    repeat split; try discriminate.
    intros df E'. congruence.
  - split; [now apply (load_shape_acquires w df)|].
    destruct Sh as [n ev Hn _ _|key _|_]; cbn [fst snd].
    + split; [reflexivity|]. split; [discriminate|]. intros e [= <-] Hb.
      apply (refused_before_close df n ev Hn).
      now apply raised_before_close_call.
    + split; [reflexivity|]. split; [discriminate|]. reflexivity.
    + split; [reflexivity|]. split; [|discriminate]. intros _. now exists df.
Qed.

(** The theorem on a run whose CREATE TABLE is refused. *)
Lemma connection_closed_only_at_end_of_success_witness :
  outcome (Sample.world 200 Sample.full
             (Sample.refuse Sample.is_create_table))
  = Err (DatabaseError (Execute CreateTable))
  /\ existsb is_close
       (trace (Sample.world 200 Sample.full
                 (Sample.refuse Sample.is_create_table)))
     = false.
Proof.
  split; [reflexivity|].
  apply (proj2 (proj2 (proj2
           (connection_closed_only_at_end_of_success
              (Sample.world 200 Sample.full
                 (Sample.refuse Sample.is_create_table)))))
           (DatabaseError (Execute CreateTable))).
  - reflexivity.
  - reflexivity.
Defined.

(** ** Runs that the database lets through *)

Lemma normalize_ok (w : World) (df df' : DataFrame) :
  normalize w df = Ok df' ->
  columns df' = canonicalize_columns (columns df)
  /\ List.length (rows df') = List.length (rows df).
Proof.
  destruct (normalize_cases w df)
    as [(k & _ & _ & H)|[(_ & H)|(_ & _ & df'' & H & C & L)]]; rewrite H;
    try discriminate.
  now intros [= <-].
Qed.

(** A frame that went through the normalizer has [start] and [end] once
    each. *)
Lemma normalize_ok_once (w : World) (df df' : DataFrame) :
  normalize w df = Ok df' ->
  occurrences START (canonicalize_columns (columns df)) = 1%nat
  /\ occurrences END_ (canonicalize_columns (columns df)) = 1%nat.
Proof.
  destruct (normalize_cases w df)
    as [(k & _ & _ & H)|[(_ & H)|(Os & Oe & _)]]; try rewrite H;
    try discriminate.
  now intros _.
Qed.

Lemma normalize_present (w : World) (df : DataFrame) :
  occurrences START (canonicalize_columns (columns df)) = 1%nat ->
  occurrences END_ (canonicalize_columns (columns df)) = 1%nat ->
  exists df', normalize w df = Ok df'.
Proof.
  intros S E.
  destruct (normalize_cases w df)
    as [(k & F & [->| ->] & _)|[([R|R] & _)|(_ & _ & df' & H & _)]].
  - apply first_missing_is_missing in F as [_ F].
    now apply occurs_once_present in S.
  - apply first_missing_is_missing in F as [_ F].
    now apply occurs_once_present in E.
  - now rewrite (occurs_once_not_repeated _ _ S) in R.
  - now rewrite (occurs_once_not_repeated _ _ E) in R.
  - now exists df'.
Qed.

Lemma loop_raises_tuple_error (df : DataFrame) (e : exn) :
  loop_raises df = Some e -> tuple_error (columns df) = Some e.
Proof. unfold loop_raises. now destruct (rows df). Qed.

(** When the server accepts every call, an upload whose loop does not
    raise makes every call of its plan. *)
Lemma load_accepted (w : World) (df : DataFrame) :
  (forall tr ev, db_accepts w tr ev = true) ->
  loop_raises df = None ->
  load w df [] = (Ok tt, plan df).
Proof.
  intros A L.
  destruct (load_cases w df) as [n ev _ _ Hr|key Hk|_].
  - rewrite A in Hr. discriminate Hr.
  - congruence.
  - reflexivity.
Qed.

Lemma run_accepted (w : World) (df : DataFrame) :
  status_code (response w) = 200%Z ->
  read_csv w (text (response w)) = Some df ->
  (forall tr ev, db_accepts w tr ev = true) ->
  occurrences START (canonicalize_columns (columns df)) = 1%nat ->
  occurrences END_ (canonicalize_columns (columns df)) = 1%nat ->
  rows df = [] \/ tuple_error (canonicalize_columns (columns df)) = None ->
  exists df', normalize w df = Ok df' /\ run w = (Ok tt, plan df').
Proof.
  intros S R A Hs He Hl.
  destruct (normalize_present w df Hs He) as [df' N].
  exists df'. split; [exact N|].
  unfold run. rewrite (extract_read w df S R), N.
  apply (load_accepted w df' A).
  destruct (normalize_ok w df df' N) as [C L].
  unfold loop_raises. destruct (rows df') as [|row rest] eqn:R'; [reflexivity|].
  destruct Hl as [Hl|Hl]; [|now rewrite C].
  rewrite Hl in L. discriminate L.
Qed.

(** The only labels a run can raise a KeyError on are the eleven read
    with [row[...]]. *)
Lemma key_error_label (w : World) (key : string) :
  outcome w = Err (KeyError key) -> In key indexed_labels.
Proof.
  unfold outcome.
  destruct (run_cases w) as [(e & E & R)|(df & E & _ & Sh)].
  - rewrite R. cbn [fst]. intros [= ->].
    apply extract_err in E as [E|[E|[E|[E|E]]]]; try discriminate E;
      injection E as ->; cbn; tauto.
  - destruct Sh as [n ev _ _ _|k Hk|_]; cbn [fst]; try discriminate.
    intros [= ->].
    now apply loop_raises_tuple_error, tuple_error_key in Hk.
Qed.

Lemma rural_not_indexed : ~ In RURAL indexed_labels.
Proof. cbn. intuition discriminate. Qed.

Lemma filter_insert_plan (df : DataFrame) :
  filter is_insert (plan df) = inserts (columns df) (rows df).
Proof.
  unfold plan. rewrite !filter_app, inserts_are_inserts. cbn.
  apply app_nil_r.
Qed.


(** ** The rural-migration column *)

(** C9: when the canonical header has no rural-migration label the run
    never raises a KeyError on it; every INSERT it executes carries false
    in [rural_to_urban]; when the eleven other labels are there and the
    server accepts every call, the run succeeds with one INSERT per row;
    whereas the tuple of a row cannot be built, for a KeyError, as soon as
    one of the eleven other labels is absent. *)
Theorem absent_rural_column_stores_false (w : World) (df : DataFrame) :
  status_code (response w) = 200%Z ->
  read_csv w (text (response w)) = Some df ->
  distinct (canonicalize_columns (columns df)) = true ->
  get_loc RURAL (canonicalize_columns (columns df)) = None ->
  outcome w <> Err (KeyError RURAL)
  /\ (forall params, In (Execute (Insert params)) (trace w) ->
                     nth_error params 6 = Some (VBool false))
  /\ ((forall key, In key indexed_labels ->
                   get_loc key (canonicalize_columns (columns df)) <> None) ->
      (forall tr ev, db_accepts w tr ev = true) ->
      outcome w = Ok tt
      /\ List.length (filter is_insert (trace w)) = List.length (rows df))
  /\ (forall key row,
         In key indexed_labels ->
         get_loc key (canonicalize_columns (columns df)) = None ->
         exists key',
           insert_params (canonicalize_columns (columns df)) row
           = Err (KeyError key')).
Proof.
  intros S R D Hr. split; [|split; [|split]].
  - intros H%key_error_label. now apply rural_not_indexed.
  - intros params. unfold trace.
    destruct (run_cases w) as [(e & E & Run)|(df' & E & _ & Sh)].
    + rewrite Run. intros [].
    + intros H%(load_shape_In w df')%In_plan; [|exact Sh].
      rewrite (extract_read w df S R) in E.
      destruct (normalize_ok w df df' E) as [C _].
      destruct H as [H|[(row & _ & H)|H]].
      * cbn in H. now destruct H as [H|[H|[H|[H|[H|[]]]]]].
      * injection H as ->. rewrite params_of_rural.
        do 2 f_equal. apply rural_absent_false. now rewrite C.
      * cbn in H. now destruct H as [H|[H|[H|[]]]].
  - intros P A.
    destruct (run_accepted w df S R A) as (df' & N & Run).
    + apply present_once; [|now apply distinct_not_repeated].
      apply P. cbn. tauto.
    + apply present_once; [|now apply distinct_not_repeated].
      apply P. cbn. tauto.
    + right. rewrite (tuple_error_distinct _ D).
      now rewrite all_present_first_missing.
    + unfold outcome, trace. rewrite Run. cbn [fst snd].
      split; [reflexivity|].
      rewrite filter_insert_plan. unfold inserts. rewrite length_map.
      now apply (normalize_ok w df df').
  - intros key row Hin Hmiss.
    destruct (missing_first_missing _ key Hin Hmiss) as [key' F].
    exists key'. now rewrite insert_params_spec, (tuple_error_distinct _ D), F.
Qed.

(** The theorem on the sample answer read from an export without the
    rural-migration column. *)
Lemma absent_rural_column_stores_false_witness :
  outcome (Sample.world 200 Sample.no_rural Sample.accept_all)
  <> Err (KeyError RURAL)
  /\ (forall params,
         In (Execute (Insert params))
            (trace (Sample.world 200 Sample.no_rural Sample.accept_all)) ->
         nth_error params 6 = Some (VBool false))
  /\ ((forall key, In key indexed_labels ->
                   get_loc key (canonicalize_columns (columns Sample.no_rural))
                   <> None) ->
      (forall tr ev,
          db_accepts (Sample.world 200 Sample.no_rural Sample.accept_all)
            tr ev = true) ->
      outcome (Sample.world 200 Sample.no_rural Sample.accept_all) = Ok tt
      /\ List.length
           (filter is_insert
              (trace (Sample.world 200 Sample.no_rural Sample.accept_all)))
         = List.length (rows Sample.no_rural))
  /\ (forall key row,
         In key indexed_labels ->
         get_loc key (canonicalize_columns (columns Sample.no_rural)) = None ->
         exists key',
           insert_params (canonicalize_columns (columns Sample.no_rural)) row
           = Err (KeyError key')).
Proof.
  apply (absent_rural_column_stores_false
           (Sample.world 200 Sample.no_rural Sample.accept_all)
           Sample.no_rural); reflexivity.
Defined.

(** ** An export without data rows *)




(** ** The timestamp columns *)

(** A converted column holds instants and NaT, and never None. *)
Lemma to_datetime_never_none (parse : list value -> value -> option string)
    (column : list value) (v : value) :
  In v (to_datetime parse column) -> v <> VNone.
Proof.
  unfold to_datetime. intros (c & <- & _)%in_map_iff.
  destruct (notnull c); [|discriminate].
  destruct (parse column c); discriminate.
Qed.

(** A cell the parser cannot read becomes NaT; converting never raises. *)
Lemma to_datetime_unparseable (parse : list value -> value -> option string)
    (column : list value) (v : value) :
  In v column -> parse column v = None ->
  In VNaT (to_datetime parse column).
Proof.
  intros Hin Hp. unfold to_datetime. apply in_map_iff. exists v.
  split; [|exact Hin]. rewrite Hp. now destruct (notnull v).
Qed.

(** C5 at an export whose only row is complete but for a start time that
    reads [not a date]: the conversion does not raise, but the value that
    reaches the INSERT is NaT and not None, the conversion coming after
    the NaN-to-None pass (no cell of a converted column is ever None); a
    server that takes no NaT for a timestamp refuses that INSERT and the
    run fails there. *)
Theorem unparseable_start_is_inserted_as_NaT :
  Sample.parse [VStr "not a date"] (VStr "not a date") = None
  /\ run (Sample.world 200 Sample.bad_start Sample.accept_all)
     = (Ok tt,
        prologue
        ++ [ Execute (Insert
               [ VNaT; VTimestamp "2024-03-01T09:32:10"; VStr "Female";
                 VStr "Secondary"; VStr "Northern"; VStr "18-25";
                 VBool true; VStr "Employed"; VInt 4; VInt 250000; VInt 7;
                 VInt 0 ]) ]
        ++ epilogue)
  /\ VNaT <> VNone
  /\ (forall parse column v, In v (to_datetime parse column) -> v <> VNone)
  /\ outcome (Sample.world 200 Sample.bad_start
               (Sample.refuse Sample.has_NaT_timestamp))
     = Err (DatabaseError
              (Execute (Insert
                 [ VNaT; VTimestamp "2024-03-01T09:32:10"; VStr "Female";
                   VStr "Secondary"; VStr "Northern"; VStr "18-25";
                   VBool true; VStr "Employed"; VInt 4; VInt 250000;
                   VInt 7; VInt 0 ]))).
Proof.
  split; [reflexivity|]. split; [vm_compute; reflexivity|].
  split; [discriminate|]. split; [exact to_datetime_never_none|].
  vm_compute. reflexivity.
Qed.

(** * Further properties of the script *)

(** ** The order of the database calls *)

Lemma firstn_snoc_nth_error {A} (l : list A) (n : nat) (x : A) :
  nth_error l n = Some x -> firstn (S n) l = firstn n l ++ [x].
Proof.
  revert l. induction n as [|n IH]; intros [|y l]; cbn [nth_error];
    try discriminate.
  - now intros [= ->].
  - intros H. cbn [firstn app]. f_equal. now apply IH.
Qed.

(** The trace of an upload is a non-empty prefix of its plan. *)
Lemma upload_prefix (w : World) (df : DataFrame) :
  extract w = Ok df ->
  exists n, (0 < n)%nat /\ trace w = firstn n (plan df).
Proof.
  intros E. unfold trace.
  destruct (run_cases w) as [(e & E' & _)|(df' & E' & _ & Sh)];
    [congruence|].
  assert (df' = df) as -> by congruence.
  destruct Sh as [n ev _ _ _|key _|_]; cbn [snd].
  - exists (S n). split; [lia|reflexivity].
  - exists (List.length prologue). split; [cbn; lia|].
    unfold plan. now rewrite firstn_app_le, firstn_all by lia.
  - exists (List.length (plan df)). split.
    + unfold plan. cbn. lia.
    + now rewrite firstn_all.
Qed.

(** X1: The calls of a run follow the script's one order: a run that gets to
    the upload makes the first [n] calls of its plan (connect, cursor,
    CREATE SCHEMA, DROP TABLE, CREATE TABLE, one INSERT per row in the
    order of the rows, commit, the two closes) for some [n] of at least
    one, and a run that does not makes none. *)
Theorem trace_is_prefix_of_plan (w : World) :
  (exists e, extract w = Err e /\ run w = (Err e, []))
  \/ (exists df n, extract w = Ok df /\ (0 < n)%nat
                   /\ trace w = firstn n (plan df)).
Proof.
  destruct (extract w) as [df|e] eqn:E.
  - right. destruct (upload_prefix w df E) as (n & Hn & T).
    now exists df, n.
  - left. exists e. split; [reflexivity|]. unfold run. now rewrite E.
Qed.

(** X2: A run that ends on a database error has stopped at the call that was
    refused: that call is the last of the trace, and it is the server's
    answer to it, after the calls before it, that ended the run. *)
Theorem refused_call_is_last (w : World) (ev : event) :
  outcome w = Err (DatabaseError ev) ->
  exists before_it,
    trace w = before_it ++ [ev] /\ db_accepts w before_it ev = false.
Proof.
  unfold outcome, trace.
  destruct (run_cases w) as [(e & E & R)|(df & E & _ & Sh)].
  - rewrite R. cbn [fst]. intros [= ->].
    apply extract_err in E as [E|[E|[E|[E|E]]]]; discriminate E.
  - destruct Sh as [n ev' Hn _ Hr|e He|_]; cbn [fst snd];
      try discriminate.
    + intros [= ->]. exists (firstn n (plan df)).
      split; [now apply firstn_snoc_nth_error|exact Hr].
    + intros [= ->].
      apply loop_raises_tuple_error, tuple_error_kinds in He.
      destruct He as [He|[He|[key He]]]; discriminate He.
Qed.

(** The theorem on a run whose CREATE TABLE is refused. *)
Lemma refused_call_is_last_witness :
  exists before_it,
    trace (Sample.world 200 Sample.full
             (Sample.refuse Sample.is_create_table))
    = before_it ++ [Execute CreateTable]
    /\ db_accepts (Sample.world 200 Sample.full
                     (Sample.refuse Sample.is_create_table))
         before_it (Execute CreateTable)
       = false.
Proof.
  apply (refused_call_is_last
           (Sample.world 200 Sample.full
              (Sample.refuse Sample.is_create_table))
           (Execute CreateTable)).
  reflexivity.
Defined.

(** ** Commit *)

Lemma plan_commit_split (df : DataFrame) :
  plan df = (prologue ++ inserts (columns df) (rows df)) ++ epilogue.
Proof. unfold plan. now rewrite app_assoc. Qed.

Lemma upload_body_no_commit (df : DataFrame) (ev : event) :
  In ev (prologue ++ inserts (columns df) (rows df)) -> ev <> Commit.
Proof.
  intros [H|(row & _ & ->)%In_inserts]%in_app_or; [|discriminate].
  cbn in H. destruct H as [<-|[<-|[<-|[<-|[<-|[]]]]]]; discriminate.
Qed.

Lemma filter_insert_epilogue (n : nat) :
  filter is_insert (firstn n epilogue) = [].
Proof.
  apply filter_none. intros ev Hev%In_firstn. cbn in Hev.
  now destruct Hev as [<-|[<-|[<-|[]]]].
Qed.

(** A prefix of the plan that shows a commit holds every INSERT. *)
Lemma commit_in_prefix (df : DataFrame) (n : nat) :
  In Commit (firstn n (plan df)) ->
  filter is_insert (firstn n (plan df)) = inserts (columns df) (rows df).
Proof.
  rewrite plan_commit_split, firstn_app.
  set (body := prologue ++ inserts (columns df) (rows df)).
  intros H.
  destruct (Nat.le_gt_cases n (List.length body)) as [Hle|Hgt].
  - exfalso. replace (n - List.length body)%nat with 0%nat in H by lia.
    cbn [firstn] in H. rewrite app_nil_r in H.
    apply In_firstn in H. now apply (upload_body_no_commit df Commit).
  - rewrite firstn_all2 by lia. rewrite filter_app, filter_insert_epilogue.
    unfold body. rewrite filter_app, inserts_are_inserts. cbn.
    now rewrite app_nil_r.
Qed.

(** X3: The commit comes after every row: a run that reaches
    [conn.commit()] has by then executed exactly one INSERT per row of the
    frame it read, in the order of the rows, each with the tuple of its
    row. *)
Theorem commit_follows_an_insert_per_row (w : World) :
  In Commit (trace w) ->
  exists df df',
    read_csv w (text (response w)) = Some df
    /\ normalize w df = Ok df'
    /\ filter is_insert (trace w)
       = map (fun row => Execute (Insert (params_of (columns df') row)))
           (rows df')
    /\ List.length (filter is_insert (trace w)) = List.length (rows df).
Proof.
  destruct (extract w) as [df'|e] eqn:E.
  2:{ unfold trace, run. rewrite E. intros []. }
  destruct (upload_prefix w df' E) as (n & _ & T).
  - rewrite T. intros H%commit_in_prefix.
    destruct (extract_ok w df' E) as (_ & df & R & N).
    exists df, df'. rewrite H. repeat split; try assumption.
    unfold inserts. rewrite length_map. now apply (normalize_ok w df df').
Qed.

(** The theorem on the sample export. *)
Lemma commit_follows_an_insert_per_row_witness :
  exists df df',
    read_csv (Sample.world 200 Sample.full Sample.accept_all)
      (text (response (Sample.world 200 Sample.full Sample.accept_all)))
    = Some df
    /\ normalize (Sample.world 200 Sample.full Sample.accept_all) df
       = Ok df'
    /\ filter is_insert
         (trace (Sample.world 200 Sample.full Sample.accept_all))
       = map (fun row => Execute (Insert (params_of (columns df') row)))
           (rows df')
    /\ List.length
         (filter is_insert
            (trace (Sample.world 200 Sample.full Sample.accept_all)))
       = List.length (rows df).
Proof.
  apply (commit_follows_an_insert_per_row
           (Sample.world 200 Sample.full Sample.accept_all)).
  cbn. tauto.
Defined.

Lemma raised_before_commit_call (ev : event) :
  raised_before_commit (DatabaseError ev) = true -> ~ In ev epilogue.
Proof. destruct ev; cbn; intuition discriminate. Qed.

(** X4: Nothing is committed by a run that fails before the commit: after a
    failed fetch, an unreadable export, a missing label, or a refused
    connect, DDL statement or INSERT, the trace has no [conn.commit()]. *)
Theorem failure_before_commit_commits_nothing (w : World) (e : exn) :
  outcome w = Err e -> raised_before_commit e = true ->
  ~ In Commit (trace w).
Proof.
  unfold outcome, trace.
  destruct (run_cases w) as [(e' & E & R)|(df & E & _ & Sh)].
  - rewrite R. intros _ _ [].
  - destruct Sh as [n ev Hn _ _|key _|_]; cbn [fst snd]; try discriminate.
    + intros [= <-] Hb%raised_before_commit_call.
      rewrite plan_commit_split in *.
      set (body := prologue ++ inserts (columns df) (rows df)) in *.
      destruct (Nat.lt_ge_cases n (List.length body)) as [Hlt|Hge].
      * rewrite firstn_app_le by lia. intros H%In_firstn.
        now apply (upload_body_no_commit df Commit).
      * rewrite nth_error_app2 in Hn by exact Hge.
        now apply nth_error_In in Hn.
    + intros _ _ H. cbn in H.
      destruct H as [H|[H|[H|[H|[H|[]]]]]]; discriminate H.
Qed.

(** The theorem on the sample answer read from an export without the
    income column. *)
Lemma failure_before_commit_commits_nothing_witness :
  ~ In Commit (trace (Sample.world 200 Sample.no_income Sample.accept_all)).
Proof.
  apply (failure_before_commit_commits_nothing
           (Sample.world 200 Sample.no_income Sample.accept_all)
           (KeyError INCOME)); reflexivity.
Defined.

(** ** Failures and the state they leave *)

(** X5: The database is contacted exactly when fetch, parsing and the two
    timestamp conversions all went through; otherwise the run ends with
    the exception of those steps (the status check, the CSV reader, a
    KeyError on a missing [start] or [end], or the ValueError of a
    repeated one) without a single call.  The ValueError is what an
    export ends on whose renamed header has [start] more than once, or
    [start] once and [end] more than once. *)
Theorem database_contacted_iff_extracted (w : World) :
  (trace w = [] <-> exists e, extract w = Err e)
  /\ (forall e, extract w = Err e ->
                outcome w = Err e
                /\ (e = fetch_failure (status_code (response w))
                    \/ e = ParserError \/ e = KeyError START
                    \/ e = KeyError END_ \/ e = ValueError))
  /\ (forall df,
         status_code (response w) = 200%Z ->
         read_csv w (text (response w)) = Some df ->
         repeated START (canonicalize_columns (columns df)) = true
         \/ (occurrences START (canonicalize_columns (columns df)) = 1%nat
             /\ repeated END_ (canonicalize_columns (columns df)) = true) ->
         run w = (Err ValueError, [])).
Proof.
  split; [|split].
  - split.
    + intros T. destruct (extract w) as [df|e] eqn:E; [|now exists e].
      destruct (upload_prefix w df E) as (n & Hn & T').
      rewrite T in T'. unfold plan, prologue in T'.
      destruct n; [lia|discriminate T'].
    + intros [e E]. unfold trace, run. now rewrite E.
  - intros e E. split; [|now apply extract_err].
    unfold outcome, run. now rewrite E.
  - intros df S R H. unfold run.
    now rewrite (extract_read w df S R), (normalize_repeated w df H).
Qed.

(** The theorem on an export with the columns [Start ] and [start]. *)
Lemma database_contacted_iff_extracted_witness :
  run (Sample.world 200 Sample.start_twice Sample.accept_all)
  = (Err ValueError, []).
Proof.
  apply (proj2 (proj2 (database_contacted_iff_extracted
                         (Sample.world 200 Sample.start_twice
                            Sample.accept_all)))
           Sample.start_twice).
  - reflexivity.
  - reflexivity.
  - left. reflexivity.
Defined.

Lemma extracted_has_start_end (w : World) (df' : DataFrame) :
  extract w = Ok df' ->
  get_loc START (columns df') <> None /\ get_loc END_ (columns df') <> None.
Proof.
  intros (_ & df & _ & N)%extract_ok.
  destruct (normalize_ok w df df' N) as [C _].
  destruct (normalize_ok_once w df df' N) as [Hs He].
  rewrite C. split; now apply occurs_once_present.
Qed.

(** X6: Where a KeyError leaves the database: on [start] or [end] it is
    raised by the timestamp conversion and no call has been made; on any
    other label it is raised by the first row of the insert loop, when
    the table has been dropped and created again and nothing is inserted
    or committed. *)
Theorem key_error_state (w : World) (key : string) :
  outcome w = Err (KeyError key) ->
  ((key = START \/ key = END_) /\ trace w = [])
  \/ (In key indexed_labels /\ key <> START /\ key <> END_
      /\ trace w = [ Connect; Cursor; Execute CreateSchema;
                     Execute DropTable; Execute CreateTable ]).
Proof.
  unfold outcome, trace.
  destruct (run_cases w) as [(e & E & R)|(df & E & _ & Sh)].
  - rewrite R. cbn [fst snd]. intros [= ->]. left. split; [|reflexivity].
    apply extract_err in E as [E|[E|[E|[E|E]]]]; try discriminate E;
      injection E as ->; tauto.
  - destruct (extracted_has_start_end w df E) as [Hs He].
    destruct Sh as [n ev _ _ _|k Hk|_]; cbn [fst snd]; try discriminate.
    intros [= ->]. right.
    apply loop_raises_tuple_error, tuple_error_key in Hk as [Hin Hk].
    repeat split; [exact Hin| | ]; intros ->; contradiction.
Qed.

(** The theorem on the sample answer read from an export without the
    income column. *)
Lemma key_error_state_witness :
  ((INCOME = START \/ INCOME = END_)
   /\ trace (Sample.world 200 Sample.no_income Sample.accept_all) = [])
  \/ (In INCOME indexed_labels /\ INCOME <> START /\ INCOME <> END_
      /\ trace (Sample.world 200 Sample.no_income Sample.accept_all)
         = [ Connect; Cursor; Execute CreateSchema;
             Execute DropTable; Execute CreateTable ]).
Proof.
  apply (key_error_state
           (Sample.world 200 Sample.no_income Sample.accept_all) INCOME).
  reflexivity.
Defined.

(** ** The tuple and the query *)

(** X7: Every tuple the loop builds fits the statement it is sent with: it has
    one parameter for each [%s] of [insert_query], which is one for each
    column the query names, and those columns are the columns of the
    CREATE TABLE statement after [id], in the same order. *)
Theorem insert_tuple_fits_query (labels : list string)
    (row params : list value) :
  insert_params labels row = Ok params ->
  List.length params = placeholders insert_query
  /\ List.length params = List.length (named_columns insert_query)
  /\ named_columns insert_query = insert_columns
  /\ map fst table_layout = "id" :: named_columns insert_query.
Proof.
  intros H. rewrite insert_params_spec in H.
  destruct (tuple_error labels); [discriminate H|].
  injection H as <-.
  split; [vm_compute; reflexivity|]. split; [vm_compute; reflexivity|].
  split; vm_compute; reflexivity.
Qed.

(** The theorem on the sample answer. *)
Lemma insert_tuple_fits_query_witness :
  List.length
    [ VStr "2024-03-01T09:15:00"; VStr "2024-03-01T09:32:10";
      VStr "Female"; VStr "Secondary"; VStr "Northern"; VStr "18-25";
      VBool true; VStr "Employed"; VInt 4; VInt 0; VInt 7; VInt 0 ]
  = placeholders insert_query.
Proof.
  refine (proj1 (insert_tuple_fits_query
                   (canonicalize_columns Sample.raw_header)
                   (map where_notnull Sample.answer) _ _)).
  vm_compute. reflexivity.
Defined.

(** ** The cells of the normalized frame *)

Lemma get_loc_label (key : string) (labels : list string) (i : nat) :
  get_loc key labels = Some i -> nth_error labels i = Some key.
Proof.
  revert i. induction labels as [|l ls IH]; intros i; cbn; [discriminate|].
  destruct (String.eqb_spec l key) as [->|N].
  - now intros [= <-].
  - destruct (get_loc key ls) as [j|]; [|discriminate].
    intros [= <-]. now apply IH.
Qed.

(** Two labels found at the same position are the same label. *)
Lemma get_loc_inj (key key' : string) (labels : list string) (i : nat) :
  get_loc key labels = Some i -> get_loc key' labels = Some i -> key = key'.
Proof. intros H%get_loc_label H'%get_loc_label. congruence. Qed.

Lemma get_loc_lt (key : string) (labels : list string) (i : nat) :
  get_loc key labels = Some i -> (i < List.length labels)%nat.
Proof.
  intros H%get_loc_label. apply nth_error_Some. congruence.
Qed.

Lemma set_cell_length (i : nat) (v : value) (row : list value) :
  List.length (set_cell i v row) = List.length row.
Proof.
  revert i. induction row as [|c row IH]; intros [|i]; cbn; auto.
Qed.

Lemma cell_set_cell_same (i : nat) (v : value) (row : list value) :
  (i < List.length row)%nat -> cell i (set_cell i v row) = v.
Proof.
  unfold cell. revert i. induction row as [|c row IH]; intros [|i]; cbn;
    try lia; [reflexivity|].
  intros H. apply IH. lia.
Qed.

Lemma cell_set_cell_other (i j : nat) (v : value) (row : list value) :
  i <> j -> cell j (set_cell i v row) = cell j row.
Proof.
  unfold cell. revert i j.
  induction row as [|c row IH]; intros [|i] [|j] H; cbn; try reflexivity;
    try contradiction.
  apply IH. congruence.
Qed.

Lemma to_datetime_instants (parse : list value -> value -> option string)
    (column : list value) (v : value) :
  In v (to_datetime parse column) -> instant_or_NaT v = true.
Proof.
  unfold to_datetime. intros (c & <- & _)%in_map_iff.
  destruct (notnull c); [|reflexivity].
  now destruct (parse column c).
Qed.

Lemma In_assign_column (i : nat) (new_column : list value)
    (rs : list (list value)) (row' : list value) :
  In row' (assign_column i new_column rs) ->
  exists row v, In row rs /\ In v new_column /\ row' = set_cell i v row.
Proof.
  unfold assign_column. intros ([row v] & <- & H)%in_map_iff.
  exists row, v. cbn [fst snd].
  split; [now apply in_combine_l in H|].
  split; [now apply in_combine_r in H|reflexivity].
Qed.

(** A row of the normalized frame is a row of the frame read, after the
    NaN-to-None pass and with its [start] and [end] cells replaced by an
    instant or NaT. *)
Lemma normalize_rows (w : World) (df df' : DataFrame) :
  normalize w df = Ok df' ->
  exists i_start i_end,
    get_loc START (columns df') = Some i_start
    /\ get_loc END_ (columns df') = Some i_end
    /\ columns df' = canonicalize_columns (columns df)
    /\ forall row', In row' (rows df') ->
         exists row v_start v_end,
           In row (rows df)
           /\ instant_or_NaT v_start = true /\ instant_or_NaT v_end = true
           /\ row' = set_cell i_end v_end
                       (set_cell i_start v_start
                          (where_row (rows df) 0 row)).
Proof.
  unfold normalize, convert_timestamp.
  change "start" with START. change "end" with END_.
  cbn [nan_to_none rename_columns columns rows].
  destruct (get_loc START (canonicalize_columns (columns df)))
    as [i_start|] eqn:Hs; [|discriminate].
  destruct (repeated START (canonicalize_columns (columns df)));
    [discriminate|].
  cbn [bind_result columns rows]. rewrite ?Hs.
  destruct (get_loc END_ (canonicalize_columns (columns df)))
    as [i_end|] eqn:He; [|discriminate].
  destruct (repeated END_ (canonicalize_columns (columns df)));
    [discriminate|].
  intros [= <-]. cbn [columns rows].
  exists i_start, i_end. repeat split; try assumption.
  intros row' (row1 & v_end & H1 & Hv_end & ->)%In_assign_column.
  apply In_assign_column in H1 as (row0 & v_start & H0 & Hv_start & ->).
  apply in_map_iff in H0 as (row & <- & Hrow).
  exists row, v_start, v_end.
  split; [exact Hrow|].
  split; [now apply to_datetime_instants in Hv_start|].
  split; [now apply to_datetime_instants in Hv_end|reflexivity].
Qed.

(** An INSERT in the trace of an upload means the loop did not raise. *)
Lemma load_shape_insert (w : World) (df : DataFrame)
    (r : result unit * list event) (params : list value) :
  load_shape w df r -> In (Execute (Insert params)) (snd r) ->
  tuple_error (columns df) = None.
Proof.
  assert (P : ~ In (Execute (Insert params)) prologue).
  { cbn. intros [H|[H|[H|[H|[H|[]]]]]]; discriminate H. }
  assert (N : loop_raises df = None ->
              In (Execute (Insert params)) (plan df) ->
              tuple_error (columns df) = None).
  { unfold loop_raises. intros L H.
    destruct (rows df) as [|row rest] eqn:R; [|exact L].
    exfalso. apply In_plan in H. rewrite R in H.
    destruct H as [H|[(row & [] & _)|H]]; [now apply P|].
    cbn in H. destruct H as [H|[H|[H|[]]]]; discriminate H. }
  intros [n ev _ Hlt _|e _|L]; cbn [snd]; intros H.
  - destruct Hlt as [L|Hlt].
    + apply N; [exact L|]. now apply In_firstn in H.
    + rewrite firstn_plan_prologue in H by exact Hlt.
      apply In_firstn in H. now destruct (P H).
  - now destruct (P H).
  - now apply N.
Qed.

(** Every INSERT of a run carries the tuple of a row of the normalized
    frame, whose labels let the tuple be built. *)
Lemma executed_insert (w : World) (params : list value) :
  In (Execute (Insert params)) (trace w) ->
  exists df df' row',
    read_csv w (text (response w)) = Some df
    /\ normalize w df = Ok df'
    /\ In row' (rows df')
    /\ params = params_of (columns df') row'
    /\ tuple_error (columns df') = None.
Proof.
  unfold trace.
  destruct (run_cases w) as [(e & E & R)|(df' & E & _ & Sh)].
  - rewrite R. intros [].
  - intros H. pose proof (load_shape_insert w df' _ params Sh H) as T.
    apply (load_shape_In w df') in H; [|exact Sh]. apply In_plan in H.
    destruct (extract_ok w df' E) as (_ & df & R & N).
    destruct H as [H|[(row & Hrow & H)|H]].
    + cbn in H. now destruct H as [H|[H|[H|[H|[H|[]]]]]].
    + injection H as ->. now exists df, df', row.
    + cbn in H. now destruct H as [H|[H|[H|[]]]].
Qed.

(** A column other than [start] and [end] comes out of normalization as
    the NaN-to-None pass left it. *)
Lemma at_label_untouched (labels : list string) (rs : list (list value))
    (row : list value) (i_start i_end : nat) (v_start v_end : value)
    (key : string) (j : nat) :
  get_loc START labels = Some i_start ->
  get_loc END_ labels = Some i_end ->
  get_loc key labels = Some j ->
  negb (String.eqb key START) && negb (String.eqb key END_) = true ->
  at_label labels
    (set_cell i_end v_end
       (set_cell i_start v_start (where_row rs 0 row))) key
  = where_cell (map (cell j) rs) (cell j row).
Proof.
  intros Hs He Hj [Ns Ne]%andb_prop.
  apply negb_true_iff, String.eqb_neq in Ns, Ne.
  unfold at_label. rewrite Hj.
  rewrite !cell_set_cell_other.
  - apply (cell_where_row rs row 0 j).
  - intros ->. apply Ns. now apply (get_loc_inj key START labels j).
  - intros ->. apply Ne. now apply (get_loc_inj key END_ labels j).
Qed.

Lemma zero_if_falsy_zero_or_truthy (v : value) :
  zero_if_falsy v = VInt 0 \/ truthy (zero_if_falsy v) = true.
Proof.
  unfold zero_if_falsy. destruct (truthy v) eqn:T; [now right|now left].
Qed.

Lemma zero_if_falsy_not_falsy (v : value) :
  ~ In (zero_if_falsy v)
      [ VNone; VStr ""; VBool false; VFloat "0.0"; VFloat "-0.0" ].
Proof.
  destruct (zero_if_falsy_zero_or_truthy v) as [Z|T].
  - rewrite Z. cbn [In].
    intros [H|[H|[H|[H|[H|[]]]]]]; discriminate H.
  - cbn [In]. intros [H|[H|[H|[H|[H|[]]]]]];
      rewrite <- H in T; discriminate T.
Qed.

(** X8: What the database is sent for the boolean and the integers: in
    every INSERT a run executes, [rural_to_urban] is a boolean, and each
    of the four integer parameters is the integer zero or a value Python
    takes for true; None, the empty text, False and 0.0 are never sent
    for them. *)
Theorem inserted_integers_are_zero_or_truthy (w : World)
    (params : list value) :
  In (Execute (Insert params)) (trace w) ->
  (exists b, nth_error params 6 = Some (VBool b))
  /\ Forall (fun p => p = VInt 0 \/ truthy p = true) (skipn 8 params)
  /\ Forall (fun p => ~ In p [ VNone; VStr ""; VBool false;
                               VFloat "0.0"; VFloat "-0.0" ])
       (skipn 8 params).
Proof.
  intros (df & df' & row' & _ & _ & _ & -> & _)%executed_insert.
  cbn [params_of skipn nth_error].
  split; [eauto|]. split.
  - repeat (apply Forall_cons; [apply zero_if_falsy_zero_or_truthy|]).
    apply Forall_nil.
  - repeat (apply Forall_cons; [apply zero_if_falsy_not_falsy|]).
    apply Forall_nil.
Qed.

(** The theorem on the INSERT of the complete sample answer. *)
Lemma inserted_integers_are_zero_or_truthy_witness :
  Forall (fun p => p = VInt 0 \/ truthy p = true)
    [ VInt 4; VInt 250000; VInt 7; VInt 0 ].
Proof.
  refine (proj1 (proj2 (inserted_integers_are_zero_or_truthy
                   (Sample.world 200 Sample.bad_start Sample.accept_all)
                   [ VNaT; VTimestamp "2024-03-01T09:32:10"; VStr "Female";
                     VStr "Secondary"; VStr "Northern"; VStr "18-25";
                     VBool true; VStr "Employed"; VInt 4; VInt 250000;
                     VInt 7; VInt 0 ] _))).
  vm_compute. tauto.
Defined.

(** X13: Each integer parameter, in terms of the export as read: it is
    [cell or 0] of the cell after the NaN-to-None pass, which leaves the
    cell as it is in a column of numbers and blanks and turns a blank
    into None in a column that holds text.  So a blank cell is sent as
    zero from a text column, and as NaN from a numeric one. *)
Theorem integer_parameter_of_cell (w : World) (params : list value) :
  In (Execute (Insert params)) (trace w) ->
  (exists df row,
      read_csv w (text (response w)) = Some df
      /\ In row (rows df)
      /\ Forall2
           (fun key p =>
              exists j,
                get_loc key (canonicalize_columns (columns df)) = Some j
                /\ p = zero_if_falsy
                         (where_cell (map (cell j) (rows df)) (cell j row)))
           integer_labels (skipn 8 params))
  /\ (forall column,
         numeric_column column = true ->
         zero_if_falsy (where_cell column VNaN) = VNaN)
  /\ (forall column,
         numeric_column column = false ->
         zero_if_falsy (where_cell column VNaN) = VInt 0).
Proof.
  intros (df & df' & row' & R & N & Hrow' & -> & T)%executed_insert.
  split; [|split].
  - destruct (normalize_rows w df df' N)
      as (i_start & i_end & Hs & He & C & Rows).
    destruct (Rows row' Hrow')
      as (row & v_start & v_end & Hrow & _ & _ & ->).
    exists df, row. split; [exact R|]. split; [exact Hrow|].
    assert (G : forall key,
               In key integer_labels ->
               negb (String.eqb key START) && negb (String.eqb key END_)
               = true ->
               exists j,
                 get_loc key (canonicalize_columns (columns df)) = Some j
                 /\ zero_if_falsy
                      (at_label (columns df')
                         (set_cell i_end v_end
                            (set_cell i_start v_start
                               (where_row (rows df) 0 row))) key)
                    = zero_if_falsy
                        (where_cell (map (cell j) (rows df)) (cell j row))).
    { intros key Hin Hne.
      assert (Hin' : In key indexed_labels) by (cbn in Hin |- *; intuition).
      pose proof (tuple_error_none _ key T Hin') as P.
      destruct (get_loc key (columns df')) as [j|] eqn:Hj; [|contradiction].
      exists j. split; [now rewrite <- C|].
      now rewrite (at_label_untouched _ _ _ _ _ _ _ key j Hs He Hj Hne). }
    cbn [params_of skipn]. unfold integer_labels.
    repeat constructor; apply G; cbn; tauto.
  - intros column H. unfold where_cell. now rewrite H.
  - intros column H. unfold where_cell. now rewrite H.
Qed.

(** The theorem on the sample export, whose income cell is blank in a
    column with nothing else in it: the parameter sent is NaN. *)
Lemma integer_parameter_of_cell_witness :
  exists df row,
    read_csv (Sample.world 200 Sample.full Sample.accept_all)
      (text (response (Sample.world 200 Sample.full Sample.accept_all)))
    = Some df
    /\ In row (rows df)
    /\ Forall2
         (fun key p =>
            exists j,
              get_loc key (canonicalize_columns (columns df)) = Some j
              /\ p = zero_if_falsy
                       (where_cell (map (cell j) (rows df)) (cell j row)))
         integer_labels [ VInt 4; VNaN; VInt 7; VInt 0 ].
Proof.
  refine (proj1 (integer_parameter_of_cell
                   (Sample.world 200 Sample.full Sample.accept_all)
                   [ VTimestamp "2024-03-01T09:15:00";
                     VTimestamp "2024-03-01T09:32:10"; VStr "Female";
                     VStr "Secondary"; VStr "Northern"; VStr "18-25";
                     VBool true; VStr "Employed"; VInt 4; VNaN; VInt 7;
                     VInt 0 ] _)).
  vm_compute. tauto.
Defined.

Lemma rectangular_row (df : DataFrame) (row : list value) :
  rectangular df = true -> In row (rows df) ->
  List.length row = List.length (columns df).
Proof.
  unfold rectangular. intros H Hin.
  apply Nat.eqb_eq. revert row Hin. now apply forallb_forall.
Qed.

(** X9: What the database is sent for the two timestamps: on a frame with one
    cell per column, the first two parameters of every INSERT a run
    executes are a Timestamp or NaT; the text of the export is never sent
    as a start or end time, and neither is None. *)
Theorem inserted_timestamps_are_instants (w : World) (df : DataFrame)
    (params : list value) :
  read_csv w (text (response w)) = Some df ->
  rectangular df = true ->
  In (Execute (Insert params)) (trace w) ->
  exists start_time end_time others,
    params = start_time :: end_time :: others
    /\ instant_or_NaT start_time = true
    /\ instant_or_NaT end_time = true.
Proof.
  intros R Rect (df0 & df' & row' & R0 & N & Hrow' & -> & _)%executed_insert.
  assert (df0 = df) as -> by congruence.
  destruct (normalize_rows w df df' N)
    as (i_start & i_end & Hs & He & C & Rows).
  destruct (Rows row' Hrow')
    as (row & v_start & v_end & Hrow & Vs & Ve & ->).
  pose proof (rectangular_row df row Rect Hrow) as L.
  assert (Ls : (i_start < List.length row)%nat).
  { apply get_loc_lt in Hs. rewrite C in Hs.
    unfold canonicalize_columns in Hs. rewrite length_map in Hs. lia. }
  assert (Le : (i_end < List.length row)%nat).
  { apply get_loc_lt in He. rewrite C in He.
    unfold canonicalize_columns in He. rewrite length_map in He. lia. }
  assert (D : i_end <> i_start).
  { intros ->. now pose proof (get_loc_inj _ _ _ _ Hs He). }
  cbn [params_of]. do 3 eexists. split; [reflexivity|].
  unfold at_label. rewrite Hs, He. split.
  - rewrite cell_set_cell_other by exact D.
    rewrite cell_set_cell_same by (now rewrite where_row_length). exact Vs.
  - rewrite cell_set_cell_same; [exact Ve|].
    now rewrite set_cell_length, where_row_length.
Qed.

(** The theorem on the export whose start time cannot be read. *)
Lemma inserted_timestamps_are_instants_witness :
  exists start_time end_time others,
    [ VNaT; VTimestamp "2024-03-01T09:32:10"; VStr "Female";
      VStr "Secondary"; VStr "Northern"; VStr "18-25"; VBool true;
      VStr "Employed"; VInt 4; VInt 250000; VInt 7; VInt 0 ]
    = start_time :: end_time :: others
    /\ instant_or_NaT start_time = true
    /\ instant_or_NaT end_time = true.
Proof.
  apply (inserted_timestamps_are_instants
           (Sample.world 200 Sample.bad_start Sample.accept_all)
           Sample.bad_start).
  - reflexivity.
  - reflexivity.
  - vm_compute. tauto.
Defined.

(** ** Headers that share a canonical label *)

Lemma isspace_lower_char (c : ascii) :
  Str.isspace (Str.lower_char c) = Str.isspace c.
Proof. each_char c. Qed.

Lemma lstrip_lower (s : string) :
  Str.lstrip (Str.lower s) = Str.lower (Str.lstrip s).
Proof.
  induction s as [|c s IH]; cbn; [reflexivity|].
  rewrite isspace_lower_char. now destruct (Str.isspace c).
Qed.

Lemma rstrip_lower (s : string) :
  Str.rstrip (Str.lower s) = Str.lower (Str.rstrip s).
Proof.
  induction s as [|c s IH]; cbn; [reflexivity|].
  rewrite IH, isspace_lower_char.
  destruct (Str.rstrip s); cbn; [now destruct (Str.isspace c)|reflexivity].
Qed.

Lemma strip_lower (s : string) :
  Str.strip (Str.lower s) = Str.lower (Str.strip s).
Proof. unfold Str.strip. now rewrite lstrip_lower, rstrip_lower. Qed.

Lemma lower_lower (s : string) : Str.lower (Str.lower s) = Str.lower s.
Proof.
  induction s as [|c s IH]; cbn; [reflexivity|].
  now rewrite lower_char_idempotent, IH.
Qed.

(** Trimming on the left and on the right commute. *)
Lemma lstrip_rstrip (s : string) :
  Str.lstrip (Str.rstrip s) = Str.rstrip (Str.lstrip s).
Proof.
  induction s as [|c s IH]; [reflexivity|].
  cbn [Str.lstrip]. destruct (Str.isspace c) eqn:Hc.
  - rewrite <- IH. cbn [Str.rstrip].
    destruct (Str.rstrip s) as [|d t]; rewrite ?Hc; [reflexivity|].
    change (Str.lstrip (String c (String d t)))
      with (if Str.isspace c then Str.lstrip (String d t)
            else String c (String d t)).
    now rewrite Hc.
  - cbn [Str.rstrip]. destruct (Str.rstrip s) as [|d t]; rewrite ?Hc;
      cbn [Str.lstrip]; now rewrite Hc.
Qed.

Lemma lstrip_spaces_app (l s : string) :
  Str.all Str.isspace l = true -> Str.lstrip (l ++ s) = Str.lstrip s.
Proof.
  induction l as [|c l IH]; cbn; [reflexivity|].
  intros [Hc Hl]%andb_prop. rewrite Hc. now apply IH.
Qed.

Lemma rstrip_app_spaces (s r : string) :
  Str.all Str.isspace r = true -> Str.rstrip (s ++ r) = Str.rstrip s.
Proof.
  intros Hr. induction s as [|c s IH]; cbn.
  - now apply rstrip_spaces.
  - now rewrite IH.
Qed.

(** Whitespace around a text does not survive [strip]. *)
Lemma strip_padding (l s r : string) :
  Str.all Str.isspace l = true -> Str.all Str.isspace r = true ->
  Str.strip (l ++ s ++ r) = Str.strip s.
Proof.
  intros Hl Hr. unfold Str.strip.
  rewrite (lstrip_spaces_app l _ Hl), <- !lstrip_rstrip.
  now rewrite (rstrip_app_spaces s r Hr).
Qed.

(** The canonical label of a header depends only on its lower-cased,
    trimmed text. *)
Lemma canonicalize_lower (s : string) :
  canonicalize s
  = Str.replace "-" "_"
      (Str.replace "&" "and"
         (Str.replace " " "_"
            (Str.replace "?" "" (Str.strip (Str.lower s))))).
Proof. unfold canonicalize. now rewrite strip_lower. Qed.

(** X10: Headers that differ only in the case of their letters and in the
    whitespace around them get the same canonical label, so the loop finds
    the column under any such spelling of its header. *)
Theorem canonicalize_ignores_case_and_padding (l s t r : string) :
  Str.all Str.isspace l = true -> Str.all Str.isspace r = true ->
  Str.lower s = Str.lower t ->
  canonicalize (l ++ s ++ r) = canonicalize t.
Proof.
  intros Hl Hr E. unfold canonicalize at 1.
  rewrite (strip_padding l s r Hl Hr), <- strip_lower, E.
  symmetry. apply canonicalize_lower.
Qed.

(** The theorem on two spellings of the gender header. *)
Lemma canonicalize_ignores_case_and_padding_witness :
  canonicalize "  GENDER " = canonicalize "Gender".
Proof.
  apply (canonicalize_ignores_case_and_padding "  " "GENDER" "Gender" " ");
    reflexivity.
Defined.

(** ** Labels that can never be found *)

Lemma get_loc_In (key : string) (labels : list string) (i : nat) :
  get_loc key labels = Some i -> In key labels.
Proof. intros H%get_loc_label. now apply nth_error_In in H. Qed.

(** X11: A key with an upper-case letter, a question mark, a space, an
    ampersand or a hyphen labels no column after the renaming, whatever
    the header of the export: looking it up in a row raises a KeyError and
    [row.get] answers with its default. *)
Theorem uncanonical_key_is_never_found (labels : list string)
    (row : list value) (key : string) (default : value) :
  Str.all canonical_char key = false ->
  getitem (canonicalize_columns labels) row key = Err (KeyError key)
  /\ get (canonicalize_columns labels) row key default = default.
Proof.
  intros H.
  assert (E : get_loc key (canonicalize_columns labels) = None).
  { destruct (get_loc key (canonicalize_columns labels)) as [i|] eqn:G;
      [|reflexivity].
    apply get_loc_In, in_map_iff in G as (h & <- & _).
    now rewrite canonicalize_canonical in H. }
  unfold getitem, get. now rewrite E.
Qed.

(** The theorem on the income header as the form writes it, looked up in
    the renamed sample header. *)
Lemma uncanonical_key_is_never_found_witness :
  getitem (canonicalize_columns Sample.raw_header) Sample.answer
    Sample.income_header
  = Err (KeyError Sample.income_header)
  /\ get (canonicalize_columns Sample.raw_header) Sample.answer
       Sample.income_header (VInt 0)
     = VInt 0.
Proof.
  apply (uncanonical_key_is_never_found Sample.raw_header Sample.answer
           Sample.income_header (VInt 0)).
  reflexivity.
Defined.

(** ** What a successful run needed *)

(** X12: A run ends well only if the GET answered 200, the export was read, its
    canonical header has [start] and [end], and either it has no data row
    or its canonical header has every one of the eleven labels read with
    [row[...]]. *)
Theorem success_requires (w : World) :
  outcome w = Ok tt ->
  status_code (response w) = 200%Z
  /\ exists df,
      read_csv w (text (response w)) = Some df
      /\ get_loc START (canonicalize_columns (columns df)) <> None
      /\ get_loc END_ (canonicalize_columns (columns df)) <> None
      /\ (rows df = []
          \/ forall key, In key indexed_labels ->
                         get_loc key (canonicalize_columns (columns df))
                         <> None).
Proof.
  unfold outcome.
  destruct (run_cases w) as [(e & E & R)|(df' & E & _ & Sh)].
  - rewrite R. discriminate.
  - destruct (extract_ok w df' E) as (S & df & R & N).
    destruct (extracted_has_start_end w df' E) as [Hs He].
    destruct (normalize_ok w df df' N) as [C L]. rewrite C in Hs, He.
    destruct Sh as [n ev _ _ _|key _|Hl]; cbn [fst]; try discriminate.
    intros _. split; [exact S|]. exists df.
    split; [exact R|]. split; [exact Hs|]. split; [exact He|].
    unfold loop_raises in Hl. rewrite C in Hl.
    destruct (rows df') as [|row' rest'].
    + left. now destruct (rows df).
    + right. intros key. now apply tuple_error_none.
Qed.

(** The theorem on the sample export. *)
Lemma success_requires_witness :
  status_code (response (Sample.world 200 Sample.full Sample.accept_all))
  = 200%Z.
Proof.
  refine (proj1 (success_requires
                   (Sample.world 200 Sample.full Sample.accept_all) _)).
  reflexivity.
Defined.
